(** * parser_logs: ingest, filter, aggregate and render access-log records

    A shallow embedding of [main.py]: the four functions [read_log_files],
    [filter_by_date], [generate_average_report] and [main], over a model of
    the Python values that [json.loads] produces.  Python exceptions are an
    explicit error result, [print] is an explicit output list, floats are
    IEEE 754 binary64 (Rocq's primitive floats).  What the program gets
    from packages it imports ([argparse], [json], [datetime.fromisoformat],
    [strftime]) and from the file system is a parameter of the functions
    that use it. *)

From Stdlib Require Import ZArith List String Ascii Bool Lia Floats DecimalString.
From Stdlib Require Import Permutation Sorted.
Import ListNotations.

Set Warnings "-inexact-float,-register-all".

Local Open Scope string_scope.
Local Open Scope Z_scope.

(** ** Python values, exceptions, strings *)

Module Py.

(** What [json.loads] can return: None, bool, int, float, str, list, dict.
    A dict is an association list of its items in insertion order. *)
Inductive value : Type :=
| VNone
| VBool (b : bool)
| VInt (z : Z)
| VFloat (f : float)
| VStr (s : string)
| VList (l : list value)
| VDict (d : list (string * value)).

(** The exceptions the program can meet. *)
Inductive exn : Type :=
| AttributeError
| TypeError
| ValueError
| OverflowError
| UnicodeDecodeError
| RecursionError
| PermissionError.

Inductive result (A : Type) : Type :=
| Ok (a : A)
| Raise (e : exn).
Arguments Ok {A} a.
Arguments Raise {A} e.

Definition bind {A B : Type} (c : result A) (k : A -> result B) : result B :=
  match c with
  | Ok a => k a
  | Raise e => Raise e
  end.

Definition is_ok {A : Type} (c : result A) : bool :=
  match c with Ok _ => true | Raise _ => false end.

(** [bool(x)]: the truth value Python's [if x:] tests. *)
Definition truthy (v : value) : bool :=
  match v with
  | VNone => false
  | VBool b => b
  | VInt z => negb (z =? 0)
  | VFloat f => negb (PrimFloat.eqb f 0%float)
  | VStr s => negb (s =? "")%string
  | VList l => match l with [] => false | _ => true end
  | VDict d => match d with [] => false | _ => true end
  end.

(** [d[k]] lookup in the item list of a dict. *)
Fixpoint assoc_get {V : Type} (k : string) (d : list (string * V)) : option V :=
  match d with
  | [] => None
  | (k', v) :: d' => if (k' =? k)%string then Some v else assoc_get k d'
  end.

(** [entry.get(key, default)].  Only a dict has the method: on any other
    value the attribute access raises AttributeError. *)
Definition get (entry : value) (key : string) (default : value) : result value :=
  match entry with
  | VDict d =>
      Ok (match assoc_get key d with Some v => v | None => default end)
  | _ => Raise AttributeError
  end.

Definition is_dict (v : value) : bool :=
  match v with VDict _ => true | _ => false end.

(** *** Strings.  A [string] is a sequence of code points below 256. *)

(** [s.split(sep)] for a one-character separator: the pieces between the
    occurrences of [sep], never an empty list. *)
Fixpoint split (sep : ascii) (s : string) : list string :=
  match s with
  | EmptyString => [EmptyString]
  | String c s' =>
      if Ascii.eqb c sep then EmptyString :: split sep s'
      else match split sep s' with
           | [] => [String c EmptyString]
           | p :: ps => String c p :: ps
           end
  end.

(** [s.replace(old, new)] for a one-character [old]: every occurrence. *)
Fixpoint replace (old : ascii) (new : string) (s : string) : string :=
  match s with
  | EmptyString => EmptyString
  | String c s' =>
      if Ascii.eqb c old then new ++ replace old new s'
      else String c (replace old new s')
  end.

(** [c.isspace()] on code points below 256: TAB..CR, FS..US, space, NEL
    and NBSP. *)
Definition isspace (c : ascii) : bool :=
  let n := Z.of_nat (nat_of_ascii c) in
  ((9 <=? n) && (n <=? 13)) || ((28 <=? n) && (n <=? 32))
  || (n =? 133) || (n =? 160).

Fixpoint lstrip (s : string) : string :=
  match s with
  | EmptyString => EmptyString
  | String c s' => if isspace c then lstrip s' else s
  end.

Fixpoint rstrip (s : string) : string :=
  match s with
  | EmptyString => EmptyString
  | String c s' =>
      match rstrip s' with
      | EmptyString => if isspace c then EmptyString else String c EmptyString
      | r => String c r
      end
  end.

(** [s.strip()]. *)
Definition strip (s : string) : string := rstrip (lstrip s).

(** [str(n)] of an int. *)
Definition str_of_int (z : Z) : string := NilZero.string_of_int (Z.to_int z).

(** [n] decimal digits of [z], zero padded on the left (the low digits when
    [z] has more). *)
Fixpoint zfill (n : nat) (z : Z) : string :=
  match n with
  | O => EmptyString
  | S n' =>
      zfill n' (z / 10) ++ String (ascii_of_nat (48 + Z.to_nat (z mod 10))) EmptyString
  end.

(** *** Floats *)

(** int to float as [float + int] and [float / int] convert their int
    operand: the nearest binary64, ties to even; an int whose nearest value
    is beyond the largest finite float raises OverflowError. *)
Definition float_of_int (z : Z) : result float :=
  let f := SF2Prim (binary_normalize prec emax z 0 false) in
  if is_infinity f then Raise OverflowError else Ok f.

(** [total += x] for a float [total]: float.__add__ accepts float, int and
    bool (an int subclass); for anything else both operands return
    NotImplemented and the statement raises TypeError. *)
Definition float_add (total : float) (x : value) : result float :=
  match x with
  | VFloat f => Ok (total + f)%float
  | VInt z => bind (float_of_int z) (fun f => Ok (total + f)%float)
  | VBool b => Ok (total + (if b then 1 else 0))%float
  | _ => Raise TypeError
  end.

(** Round the rational [num / den] ([den > 0]) to the nearest integer, ties
    to even. *)
Definition round_half_even (num den : Z) : Z :=
  let q := num / den in
  let r := num mod den in
  match 2 * r ?= den with
  | Lt => q
  | Gt => q + 1
  | Eq => if Z.even q then q else q + 1
  end.

(** The exact value of a finite float times 1000, rounded to an integer. *)
Definition milli (m : positive) (e : Z) : Z :=
  if 0 <=? e then Z.pos m * 2 ^ e * 1000
  else round_half_even (Z.pos m * 1000) (2 ^ (- e)).

Definition sign_str (s : bool) : string := if s then "-" else "".

Definition fixed3 (s : bool) (q : Z) : string :=
  sign_str s ++ str_of_int (q / 1000) ++ "." ++ zfill 3 (q mod 1000).

(** [f"{x:.3f}"] of a float: correctly rounded, three digits after the
    point; [nan] and the infinities print by name. *)
Definition format_3f (x : float) : string :=
  match Prim2SF x with
  | S754_nan => "nan"
  | S754_infinity s => sign_str s ++ "inf"
  | S754_zero s => fixed3 s 0
  | S754_finite s m e => fixed3 s (milli m e)
  end.

End Py.

(** ** Dates: [strptime], and the calendar the properties are stated with *)

Module DateTime.

Record datetime : Type := mk_datetime {
  year : Z; month : Z; day : Z;
  hour : Z; minute : Z; second : Z; microsecond : Z;
  (** [utcoffset()] in microseconds; [None] for a naive datetime. *)
  tzoffset : option Z
}.

Definition digit (c : ascii) : option Z :=
  let n := Z.of_nat (nat_of_ascii c) in
  if (48 <=? n) && (n <=? 57) then Some (n - 48) else None.

(** Exactly [n] decimal digits at the start of [s]: their value, and the
    rest of [s]. *)
Fixpoint digits_from (n : nat) (acc : Z) (s : string) : option (Z * string) :=
  match n with
  | O => Some (acc, s)
  | S n' =>
      match s with
      | EmptyString => None
      | String c s' =>
          match digit c with
          | Some v => digits_from n' (10 * acc + v) s'
          | None => None
          end
      end
  end.

Definition digits (n : nat) (s : string) : option (Z * string) :=
  digits_from n 0 s.

Definition expect (c : ascii) (s : string) : option string :=
  match s with
  | String c' s' => if Ascii.eqb c' c then Some s' else None
  | EmptyString => None
  end.

Definition is_leap (y : Z) : bool :=
  ((y mod 4 =? 0) && negb (y mod 100 =? 0)) || (y mod 400 =? 0).

Definition days_in_month (y m : Z) : Z :=
  if m =? 2 then (if is_leap y then 29 else 28)
  else if (m =? 4) || (m =? 6) || (m =? 9) || (m =? 11) then 30
  else 31.

(** The range checks of the [date] constructor (MINYEAR = 1, MAXYEAR = 9999). *)
Definition valid_date (y m d : Z) : bool :=
  (1 <=? y) && (y <=? 9999) && (1 <=? m) && (m <=? 12)
  && (1 <=? d) && (d <=? days_in_month y m).

Definition one_day_us : Z := 86400 * 1000000.

(** The [%m] directive of [strptime]: [1[0-2]|0[1-9]|[1-9]]. *)
Definition strptime_month (s : string) : option (Z * string) :=
  match digits 2 s with
  | Some (m, r) =>
      if (1 <=? m) && (m <=? 12) then Some (m, r)
      else match digits 1 s with
           | Some (m1, r1) => if 1 <=? m1 then Some (m1, r1) else None
           | None => None
           end
  | None =>
      match digits 1 s with
      | Some (m1, r1) => if 1 <=? m1 then Some (m1, r1) else None
      | None => None
      end
  end.

(** The [%d] directive: [3[0-1]|[1-2]\d|0[1-9]|[1-9]| [1-9]]. *)
Definition strptime_day (s : string) : option (Z * string) :=
  let one (t : string) :=
    match digits 1 t with
    | Some (d1, r1) => if 1 <=? d1 then Some (d1, r1) else None
    | None => None
    end in
  match digits 2 s with
  | Some (d, r) =>
      if (1 <=? d) && (d <=? 31) then Some (d, r) else one s
  | None =>
      match one s with
      | Some x => Some x
      | None => match expect " " s with Some t => one t | None => None end
      end
  end.

(** [datetime.strptime(s, "%Y-%m-%d")]: the date, or [None] for ValueError
    (no match, unconverted data left, or no such day). *)
Definition strptime_ymd (s : string) : option (Z * Z * Z) :=
  match digits 4 s with
  | None => None
  | Some (y, r1) =>
  match expect "-" r1 with
  | None => None
  | Some r2 =>
  match strptime_month r2 with
  | None => None
  | Some (m, r3) =>
  match expect "-" r3 with
  | None => None
  | Some r4 =>
  match strptime_day r4 with
  | Some (d, EmptyString) => if valid_date y m d then Some (y, m, d) else None
  | _ => None
  end end end end end.

(** Days since 1970-01-01 of a proleptic Gregorian date, and back. *)
Definition days_from_civil (y m d : Z) : Z :=
  let y' := if m <=? 2 then y - 1 else y in
  let era := y' / 400 in
  let yoe := y' - era * 400 in
  let doy := (153 * (if 2 <? m then m - 3 else m + 9) + 2) / 5 + d - 1 in
  let doe := yoe * 365 + yoe / 4 - yoe / 100 + doy in
  era * 146097 + doe - 719468.

Definition civil_from_days (z : Z) : Z * Z * Z :=
  let z := z + 719468 in
  let era := z / 146097 in
  let doe := z - era * 146097 in
  let yoe := (doe - doe / 1460 + doe / 36524 - doe / 146096) / 365 in
  let doy := doe - (365 * yoe + yoe / 4 - yoe / 100) in
  let mp := (5 * doy + 2) / 153 in
  let d := doy - (153 * mp + 2) / 5 + 1 in
  let m := if mp <? 10 then mp + 3 else mp - 9 in
  ((if m <=? 2 then yoe + era * 400 + 1 else yoe + era * 400), m, d).

(** The calendar date of [dt] at UTC: its instant moved by its offset.  A
    naive datetime is read as UTC already. *)
Definition utc_date (dt : datetime) : Z * Z * Z :=
  match tzoffset dt with
  | None => (year dt, month dt, day dt)
  | Some off =>
      let local :=
        days_from_civil (year dt) (month dt) (day dt) * one_day_us
        + ((hour dt * 60 + minute dt) * 60 + second dt) * 1000000
        + microsecond dt in
      civil_from_days ((local - off) / one_day_us)
  end.

(** A date as [YYYY-MM-DD]. *)
Definition isoformat_date (ymd : Z * Z * Z) : string :=
  let '(y, m, d) := ymd in
  Py.zfill 4 y ++ "-" ++ Py.zfill 2 m ++ "-" ++ Py.zfill 2 d.

End DateTime.

(** ** The program *)

Module Main.
Import Py DateTime.

Notation "x <- c ;; k" := (bind c (fun x => k))
  (at level 61, c at next level, right associativity).

(** *** [read_log_files] *)

(** How the iteration over the lines of an opened file ends: at the end of
    the file, with an OSError whose text is [err], or at bytes that are not
    UTF-8, with a UnicodeDecodeError. *)
Inductive read_end : Type :=
| EndOfFile
| ReadError (err : string)
| BadEncoding.

(** What a path names: nothing ([path.exists()] is false), something that
    [path.exists()] itself may not look at (it raises a PermissionError),
    something that [open] refuses with an OSError whose text is [err], or a
    file that opens, with the lines its iterator yields and the way the
    iteration ends. *)
Inductive source : Type :=
| Missing
| Inaccessible
| Unreadable (err : string)
| Text (lines : list string) (stop : read_end).

Definition filesystem : Type := string -> source.

(** What [json.loads] does with a text: it returns a value, raises a
    JSONDecodeError that prints as [msg], or raises something else (a
    ValueError for an int of too many digits, a RecursionError). *)
Inductive decoded : Type :=
| Decoded (v : value)
| JSONDecodeError (msg : string)
| Raises (e : exn).

Section Ingest.

Variable json_loads : string -> decoded.
Variable fs : filesystem.

(** The inner loop, [for line_num, line in enumerate(f, 1)], over the lines
    the file yields; [entries] is the list being appended to, [out] what
    has been printed.  Only a JSONDecodeError is caught here. *)
Fixpoint read_lines (file_path : string) (line_num : Z) (lines : list string)
    (entries : list value) (out : list string)
    : result (list value) * list string :=
  match lines with
  | [] => (Ok entries, out)
  | line :: rest =>
      let line := strip line in
      if (line =? "")%string then
        read_lines file_path (line_num + 1) rest entries out
      else
        match json_loads line with
        | Decoded entry =>
            read_lines file_path (line_num + 1) rest (entries ++ [entry]) out
        | JSONDecodeError e =>
            read_lines file_path (line_num + 1) rest entries
              (out ++ ["Warning: Invalid JSON in " ++ file_path ++ " at line "
                         ++ str_of_int line_num ++ ": " ++ e])
        | Raises ex => (Raise ex, out)
        end
  end.

(** The [try] block on one opened file: the loop over its lines, then the
    end of the iteration.  [except (IOError, OSError)] catches a read
    error, after which the entries appended so far stay; a
    UnicodeDecodeError is a ValueError and passes through. *)
Definition read_opened (file_path : string) (lines : list string)
    (stop : read_end) (entries : list value) (out : list string)
    : result (list value) * list string :=
  match read_lines file_path 1 lines entries out with
  | (Ok entries', out') =>
      match stop with
      | EndOfFile => (Ok entries', out')
      | ReadError e =>
          (Ok entries',
           (out' ++ [("Error reading file " ++ file_path ++ ": " ++ e)%string])%list)
      | BadEncoding => (Raise UnicodeDecodeError, out')
      end
  | (Raise ex, out') => (Raise ex, out')
  end.

(** The outer loop, [for file_path in file_paths].  [path.exists()] stands
    outside the [try]. *)
Fixpoint read_files (file_paths : list string)
    (entries : list value) (out : list string)
    : result (list value) * list string :=
  match file_paths with
  | [] => (Ok entries, out)
  | file_path :: rest =>
      match fs file_path with
      | Missing =>
          read_files rest entries
            (out ++ ["Warning: File " ++ file_path ++ " does not exist, skipping..."])
      | Inaccessible => (Raise PermissionError, out)
      | Unreadable e =>
          read_files rest entries
            (out ++ ["Error reading file " ++ file_path ++ ": " ++ e])
      | Text lines stop =>
          match read_opened file_path lines stop entries out with
          | (Ok entries', out') => read_files rest entries' out'
          | (Raise ex, out') => (Raise ex, out')
          end
      end
  end.

(** [read_log_files(file_paths)]: the entries it returns or the exception
    it raises, and what was printed. *)
Definition read_log_files (file_paths : list string)
    : result (list value) * list string :=
  read_files file_paths [] [].

End Ingest.

(** *** [filter_by_date] *)

Section DateFilter.

(** [datetime.fromisoformat]: the datetime, or [None] for the ValueError it
    raises on a text it does not accept.  Which texts it accepts depends on
    the release of Python. *)
Variable fromisoformat : string -> option datetime.

(** [dt.strftime("%Y-%m-%d")].  How a year below 1000 is written depends on
    the C library. *)
Variable strftime_ymd : datetime -> string.

(** The two statements under [try]: the timestamp's date as text.  Only a
    str has [replace]. *)
Definition entry_date (timestamp : value) : result string :=
  match timestamp with
  | VStr s =>
      match fromisoformat (replace "Z" "+00:00" s) with
      | Some dt => Ok (strftime_ymd dt)
      | None => Raise ValueError
      end
  | _ => Raise AttributeError
  end.

(** The loop of [filter_by_date]; [filtered] is the list being appended to.
    [entry.get] stands outside the [try]. *)
Fixpoint filter_loop (entries : list value) (date_filter : string)
    (filtered : list value) : result (list value) :=
  match entries with
  | [] => Ok filtered
  | entry :: rest =>
      timestamp <- get entry "@timestamp" (VStr "") ;;
      if truthy timestamp then
        match entry_date timestamp with
        | Ok d =>
            if (d =? date_filter)%string
            then filter_loop rest date_filter (filtered ++ [entry])
            else filter_loop rest date_filter filtered
        | Raise ValueError | Raise AttributeError =>
            filter_loop rest date_filter filtered
        | Raise e => Raise e
        end
      else filter_loop rest date_filter filtered
  end.

Definition filter_by_date (entries : list value) (date_filter : string)
    : result (list value) :=
  filter_loop entries date_filter [].

End DateFilter.

(** *** [generate_average_report] *)

(** One value of [stats]: [{"count": ..., "total_time": ...}]. *)
Record stat : Type := mk_stat { count : Z; total_time : float }.

(** [stats], a defaultdict: its items in insertion order. *)
Definition stats : Type := list (string * stat).

Definition default_stat : stat := mk_stat 0 0%float.

(** [stats[k]] on the defaultdict: a missing key is first inserted, last,
    with the factory's value. *)
Fixpoint setdefault (k : string) (d : stats) : stats :=
  match d with
  | [] => [(k, default_stat)]
  | (k', v) :: d' =>
      if (k' =? k)%string then d else (k', v) :: setdefault k d'
  end.

Definition item (k : string) (d : stats) : stat :=
  match assoc_get k d with Some v => v | None => default_stat end.

(** Store [v] under the key [k], which keeps its place. *)
Fixpoint store (k : string) (v : stat) (d : stats) : stats :=
  match d with
  | [] => []
  | (k', v') :: d' =>
      if (k' =? k)%string then (k', v) :: d' else (k', v') :: store k v d'
  end.

(** [url.split("?")[0]]; only a str has [split]. *)
Definition endpoint_of (url : value) : result string :=
  match url with
  | VStr s => Ok (hd EmptyString (split "?" s))
  | _ => Raise AttributeError
  end.

(** The body of the aggregation loop for one entry. *)
Definition aggregate_entry (entry : value) (d : stats) : result stats :=
  url <- get entry "url" (VStr "") ;;
  if truthy url then
    endpoint <- endpoint_of url ;;
    response_time <- get entry "response_time" (VFloat 0%float) ;;
    let d := setdefault endpoint d in
    let d := store endpoint
               (mk_stat (count (item endpoint d) + 1) (total_time (item endpoint d))) d in
    let d := setdefault endpoint d in
    t <- float_add (total_time (item endpoint d)) response_time ;;
    Ok (store endpoint (mk_stat (count (item endpoint d)) t) d)
  else Ok d.

Fixpoint aggregate_loop (entries : list value) (d : stats) : result stats :=
  match entries with
  | [] => Ok d
  | entry :: rest => d' <- aggregate_entry entry d ;; aggregate_loop rest d'
  end.

Definition aggregate (entries : list value) : result stats :=
  aggregate_loop entries [].

(** A row of [table_data] before the rank is put in front. *)
Record row : Type := mk_row { endpoint : string; total : Z; avg_response_time : string }.

(** [float / int] for the int [n]: the int is converted first.  A count is
    at most the length of a list, far inside the float range. *)
Definition truediv (x : float) (n : Z) : float :=
  (x / SF2Prim (binary_normalize prec emax n 0 false))%float.

(** [avg_time] of one item; the int [0] of the [else] formats as [0.0]
    does. *)
Definition avg_time (data : stat) : float :=
  if 0 <? count data then truediv (total_time data) (count data) else 0%float.

Definition row_of (it : string * stat) : row :=
  mk_row (fst it) (count (snd it)) (format_3f (avg_time (snd it))).

(** [table_data.sort(key=lambda x: x[1], reverse=True)]: the stable sort,
    larger counts first. *)
Fixpoint insert_row (x : row) (l : list row) : list row :=
  match l with
  | [] => [x]
  | y :: l' => if total y <=? total x then x :: l else y :: insert_row x l'
  end.

Fixpoint sort_rows (l : list row) : list row :=
  match l with
  | [] => []
  | x :: l' => insert_row x (sort_rows l')
  end.

(** [enumerate(l)], counting from [i]. *)
Fixpoint enumerate {A : Type} (i : Z) (l : list A) : list (Z * A) :=
  match l with
  | [] => []
  | x :: l' => (i, x) :: enumerate (i + 1) l'
  end.

(** A str the program prints: one it built itself, or what the call
    [tabulate(table_data, headers=..., tablefmt=..., colalign=...)] of the
    tabulate package returns for these arguments. *)
Inductive text : Type :=
| Plain (s : string)
| Tabulate (table_data : list (Z * row)) (headers : list string)
    (tablefmt : string) (colalign : list string).

Definition table_data (d : stats) : list (Z * row) :=
  enumerate 0 (sort_rows (map row_of d)).

Definition generate_average_report (entries : list value) : result text :=
  match entries with
  | [] => Ok (Plain "No log entries found")
  | _ =>
      d <- aggregate entries ;;
      match d with
      | [] => Ok (Plain "No valid endpoints found")
      | _ =>
          Ok (Tabulate (table_data d)
                [""; "handler"; "total"; "avg_response_time"]
                "plain" ["left"; "left"; "right"; "right"])
      end
  end.

(** *** [main] *)

(** The namespace [parse_arguments] returns. *)
Record args : Type := mk_args {
  file : list string;
  report : string;
  date : option string
}.

(** How a run ends: [main] returns, [sys.exit(code)], or an exception
    nobody catches. *)
Inductive outcome : Type :=
| Returned
| SystemExit (code : Z)
| Uncaught (e : exn).

(** The exit status of the process. *)
Definition exit_code (o : outcome) : Z :=
  match o with
  | Returned => 0
  | SystemExit c => c
  | Uncaught _ => 1
  end.

(** A run: what was printed, how it ended, and (a ghost field) the
    arguments of the calls of [generate_average_report]. *)
Record run : Type := mk_run {
  stdout : list text;
  ending : outcome;
  report_calls : list (list value)
}.

(** [if args.date:] holds for a date that is given and not empty. *)
Definition date_given (a : args) : option string :=
  match date a with
  | Some d => if (d =? "")%string then None else Some d
  | None => None
  end.

(** What [parse_arguments()] does with the command line: it returns the
    namespace, or [argparse] ends the process itself with [code], having
    printed [out] on standard output (a usage error: code 2; [--help]: the
    help text and code 0). *)
Inductive parsed : Type :=
| Namespace (a : args)
| ArgparseExit (out : list string) (code : Z).

(** From [if args.report == "average":] on. *)
Definition report_stage (a : args) (out : list text) (entries : list value) : run :=
  if (report a =? "average")%string then
    match generate_average_report entries with
    | Ok r => mk_run (out ++ [r]) Returned [entries]
    | Raise e => mk_run out (Uncaught e) [entries]
    end
  else
    mk_run (out ++ [Plain ("Error: Unknown report type '" ++ report a
                             ++ "'. Supported: average")])
      (SystemExit 1) [].

Section Cli.

Variable parse_arguments : list string -> parsed.
Variable json_loads : string -> decoded.
Variable fs : filesystem.
Variable fromisoformat : string -> option datetime.
Variable strftime_ymd : datetime -> string.

(** From [entries = read_log_files(args.file)] on. *)
Definition ingest_stage (a : args) : run :=
  match read_log_files json_loads fs (file a) with
  | (Raise e, warnings) => mk_run (map Plain warnings) (Uncaught e) []
  | (Ok entries, warnings) =>
      let out := map Plain warnings in
      match entries with
      | [] =>
          mk_run (out ++ [Plain "Error: No valid log entries found in the specified files."])
            (SystemExit 1) []
      | _ =>
          match date_given a with
          | Some d =>
              match filter_by_date fromisoformat strftime_ymd entries d with
              | Raise e => mk_run out (Uncaught e) []
              | Ok [] =>
                  mk_run (out ++ [Plain ("No log entries found for date " ++ d)])
                    (SystemExit 0) []
              | Ok entries' => report_stage a out entries'
              end
          | None => report_stage a out entries
          end
      end
  end.

(** From [if args.date:] on, with the namespace [a]. *)
Definition date_stage (a : args) : run :=
  match date_given a with
  | Some d =>
      match strptime_ymd d with
      | None =>
          mk_run [Plain ("Error: Invalid date format '" ++ d
                           ++ "'. Use YYYY-MM-DD format.")]
            (SystemExit 1) []
      | Some _ => ingest_stage a
      end
  | None => ingest_stage a
  end.

(** [main()], run with the command line [argv]. *)
Definition main (argv : list string) : run :=
  match parse_arguments argv with
  | ArgparseExit out code => mk_run (map Plain out) (SystemExit code) []
  | Namespace a => date_stage a
  end.

End Cli.

End Main.

(** ** What the properties are stated with *)

Module Spec.
Import Py DateTime Main.

(** *** Aggregation, record by record *)

(** The float that [total_time += response_time] adds. *)
Definition addend (response_time : value) : result float :=
  match response_time with
  | VFloat f => Ok f
  | VInt z => float_of_int z
  | VBool b => Ok (if b then 1 else 0)%float
  | _ => Raise TypeError
  end.

(** What one entry brings to [stats]: nothing, or an endpoint and a time;
    or the exception it makes the loop raise. *)
Definition contribution (entry : value) : result (option (string * float)) :=
  url <- get entry "url" (VStr "") ;;
  if truthy url then
    e <- endpoint_of url ;;
    response_time <- get entry "response_time" (VFloat 0%float) ;;
    x <- addend response_time ;;
    Ok (Some (e, x))
  else Ok None.

(** One more record of time [x] under the endpoint [e]. *)
Definition bump (e : string) (x : float) (d : stats) : stats :=
  store e (mk_stat (count (item e d) + 1) (total_time (item e d) + x)%float)
    (setdefault e d).

(** The endpoint a record is grouped under: the text of its [url] before
    the first [?]; none when [url] is absent, empty, or not a str. *)
Definition endpoint_key (entry : value) : option string :=
  match entry with
  | VDict fields =>
      match assoc_get "url" fields with
      | Some (VStr u) =>
          if (u =? "")%string then None else Some (hd EmptyString (split "?" u))
      | _ => None
      end
  | _ => None
  end.

(** The response time a record counts with: its [response_time] as a float,
    [0.0] when it has none. *)
Definition response_time_of (entry : value) : float :=
  match entry with
  | VDict fields =>
      match assoc_get "response_time" fields with
      | Some (VFloat f) => f
      | Some (VInt z) => SF2Prim (binary_normalize prec emax z 0 false)
      | Some (VBool true) => 1%float
      | _ => 0%float
      end
  | _ => 0%float
  end.

(** [d'] is [d] with one more record of time [x] under [e], and nothing
    else changed. *)
Definition adds (e : string) (x : float) (d d' : stats) : Prop :=
  count (item e d') = count (item e d) + 1
  /\ total_time (item e d') = (total_time (item e d) + x)%float
  /\ forall k : string, k <> e -> assoc_get k d' = assoc_get k d.

(** The record is counted once under its endpoint, with its response time,
    [0.0] standing in for one that is absent or not a number. *)
Definition counted_with_default (entry : value) (d : stats) : Prop :=
  exists (e : string) (d' : stats),
    endpoint_key entry = Some e
    /\ aggregate_entry entry d = Ok d'
    /\ adds e (response_time_of entry) d d'.

Definition grouped_under (e : string) (entry : value) : bool :=
  match endpoint_key entry with
  | Some e' => (e' =? e)%string
  | None => false
  end.

(** The records grouped under [e], in their order. *)
Definition group (e : string) (entries : list value) : list value :=
  filter (grouped_under e) entries.

(** A float sum as the loop computes it: from [0.0], left to right. *)
Definition fsum (xs : list float) : float :=
  fold_left (fun t x => (t + x)%float) xs 0%float.

(** The endpoints of the contributing records, one per record, in order. *)
Definition endpoint_keys (entries : list value) : list string :=
  flat_map (fun entry => match endpoint_key entry with
                         | Some e => [e]
                         | None => []
                         end) entries.

(** Each key where it first occurs. *)
Fixpoint first_seen (l : list string) : list string :=
  match l with
  | [] => []
  | k :: l' => k :: filter (fun k' => negb (k' =? k)%string) (first_seen l')
  end.

(** *** Ingestion, source by source *)

(** The values the lines of one file decode to: blank lines and lines that
    fail to decode give none. *)
Definition decoded_lines (json_loads : string -> decoded)
    (lines : list string) : list value :=
  flat_map (fun line =>
              if (strip line =? "")%string then []
              else match json_loads (strip line) with
                   | Decoded v => [v]
                   | _ => []
                   end) lines.

(** The warning for one numbered line, if it fails with a JSONDecodeError:
    the path, the line's number, the decoder's message. *)
Definition line_warning (json_loads : string -> decoded)
    (file_path : string) (il : Z * string) : list string :=
  if (strip (snd il) =? "")%string then []
  else match json_loads (strip (snd il)) with
       | JSONDecodeError e =>
           ["Warning: Invalid JSON in " ++ file_path ++ " at line "
              ++ str_of_int (fst il) ++ ": " ++ e]
       | _ => []
       end.

(** The warnings for the lines of one file, numbered from 1. *)
Definition line_warnings (json_loads : string -> decoded)
    (file_path : string) (lines : list string) : list string :=
  flat_map (line_warning json_loads file_path) (enumerate 1 lines).

(** The records of one source: the decoded lines of a file that opens. *)
Definition source_records (json_loads : string -> decoded)
    (fs : filesystem) (file_path : string) : list value :=
  match fs file_path with
  | Text lines _ => decoded_lines json_loads lines
  | _ => []
  end.

(** What is printed for one source: one line when it is missing or does
    not open; for a file that opens, the warnings of its lines, then one
    line when reading it ends with an OSError. *)
Definition source_warnings (json_loads : string -> decoded)
    (fs : filesystem) (file_path : string) : list string :=
  match fs file_path with
  | Missing => ["Warning: File " ++ file_path ++ " does not exist, skipping..."]
  | Unreadable e => ["Error reading file " ++ file_path ++ ": " ++ e]
  | Inaccessible => []
  | Text lines stop =>
      (line_warnings json_loads file_path lines
       ++ match stop with
          | ReadError e =>
              [("Error reading file " ++ file_path ++ ": " ++ e)%string]
          | _ => []
          end)%list
  end.

(** On this line [json.loads] is not called, or it returns or raises a
    JSONDecodeError. *)
Definition decodable_line (json_loads : string -> decoded) (line : string) : bool :=
  if (strip line =? "")%string then true
  else match json_loads (strip line) with
       | Raises _ => false
       | _ => true
       end.

(** A source with nothing in it that the function does not catch: a path
    that [path.exists()] may look at, no bytes that are not UTF-8, no line
    on which [json.loads] raises anything but a JSONDecodeError. *)
Definition clean_source (json_loads : string -> decoded)
    (fs : filesystem) (file_path : string) : bool :=
  match fs file_path with
  | Text lines stop =>
      forallb (decodable_line json_loads) lines
      && match stop with BadEncoding => false | _ => true end
  | Inaccessible => false
  | _ => true
  end.

(** *** The date filter *)

(** The record's [@timestamp] is a str, not empty, that parses once every
    [Z] is replaced by [+00:00], and [strftime] writes its date as
    [date_filter]. *)
Definition on_written_date (fromisoformat : string -> option datetime)
    (strftime_ymd : datetime -> string)
    (date_filter : string) (entry : value) : bool :=
  match entry with
  | VDict fields =>
      match assoc_get "@timestamp" fields with
      | Some (VStr s) =>
          if (s =? "")%string then false
          else match fromisoformat (replace "Z" "+00:00" s) with
               | Some dt => (strftime_ymd dt =? date_filter)%string
               | None => false
               end
      | _ => false
      end
  | _ => false
  end.

(** [s] with a [Z] at its very end read as [+00:00]. *)
Fixpoint trailing_Z (s : string) : string :=
  match s with
  | EmptyString => EmptyString
  | String c EmptyString => if Ascii.eqb c "Z" then "+00:00" else s
  | String c s' => String c (trailing_Z s')
  end.

(** The record's [@timestamp] parses (a trailing [Z] read as [+00:00]) and
    its date at UTC is [target]. *)
Definition on_utc_date (fromisoformat : string -> option datetime)
    (target : Z * Z * Z) (entry : value) : bool :=
  match entry with
  | VDict fields =>
      match assoc_get "@timestamp" fields with
      | Some (VStr s) =>
          match fromisoformat (trailing_Z s) with
          | Some dt => (isoformat_date (utc_date dt) =? isoformat_date target)%string
          | None => false
          end
      | _ => false
      end
  | _ => false
  end.

(** *** Types of the fields, and the stages of [main] *)

(** The claim's condition on a record: a dict whose url, when it counts as
    true, is a str, and whose response_time, when such a record has one, is
    a number. *)
Definition typed_record (entry : value) : bool :=
  match entry with
  | VDict fields =>
      match assoc_get "url" fields with
      | None => true
      | Some url =>
          if truthy url then
            match url with
            | VStr _ =>
                match assoc_get "response_time" fields with
                | None | Some (VInt _) | Some (VFloat _) => true
                | _ => false
                end
            | _ => false
            end
          else true
      end
  | _ => false
  end.

(** The same, with an int response_time inside the range of a float. *)
Definition float_typed_record (entry : value) : bool :=
  match entry with
  | VDict fields =>
      match assoc_get "url" fields with
      | None => true
      | Some url =>
          if truthy url then
            match url with
            | VStr _ =>
                match assoc_get "response_time" fields with
                | None | Some (VFloat _) => true
                | Some (VInt z) => is_ok (float_of_int z)
                | _ => false
                end
            | _ => false
            end
          else true
      end
  | _ => false
  end.

(** A dict whose url counts as true and is not a str. *)
Definition odd_url (entry : value) : bool :=
  match entry with
  | VDict fields =>
      match assoc_get "url" fields with
      | Some (VStr _) | None => false
      | Some url => truthy url
      end
  | _ => false
  end.

(** The date argument passes the check at the start of [main]: it is not
    given (or empty), or [strptime] accepts it. *)
Definition date_accepted (a : args) : Prop :=
  match date_given a with
  | Some d => strptime_ymd d <> None
  | None => True
  end.


(** *** Shapes of text *)

Fixpoint has_char (c : ascii) (s : string) : bool :=
  match s with
  | EmptyString => false
  | String c' s' => Ascii.eqb c' c || has_char c s'
  end.

End Spec.

(** ** Sample inputs *)

Module Samples.
Import Py DateTime Main.

Definition hit (url : string) (response_time : float) : value :=
  VDict [("url", VStr url); ("response_time", VFloat response_time)].

(** Response times 0.1 and 0.2 on one endpoint, the query strings apart. *)
Definition two_hits : list value :=
  [hit "/api/test?param=1" 0.1%float; hit "/api/test?param=2" 0.2%float].

Definition two_hits_stats : stats :=
  [("/api/test", mk_stat 2 (0 + 0.1 + 0.2)%float)].

(** Endpoints seen 1, 3 and 1 times. *)
Definition counts_1_3_1 : list value :=
  [hit "/api/rare" 0.1%float; hit "/api/common" 0.1%float;
   hit "/api/common?page=2" 0.1%float; hit "/api/other" 0.1%float;
   hit "/api/common" 0.1%float].

Definition counts_1_3_1_stats : stats :=
  [("/api/rare", mk_stat 1 (0 + 0.1)%float);
   ("/api/common", mk_stat 3 (0 + 0.1 + 0.1 + 0.1)%float);
   ("/api/other", mk_stat 1 (0 + 0.1)%float)].

(** A record whose response time is text. *)
Definition slow_text : value :=
  VDict [("url", VStr "/a"); ("response_time", VStr "fast")].

(** A record whose response time is an int no float can hold. *)
Definition huge_time : value :=
  VDict [("url", VStr "/a"); ("response_time", VInt (10 ^ 400))].

(** A record stamped half an hour before midnight, five hours west of
    Greenwich: already the next day at UTC. *)
Definition late_evening : value :=
  VDict [("@timestamp", VStr "2025-06-22T23:30:00-05:00"); ("url", VStr "/api/test")].

Definition june_22_evening : value :=
  VDict [("@timestamp", VStr "2025-06-22T20:03:08+00:00"); ("url", VStr "/api/test1")].

Definition june_23_evening : value :=
  VDict [("@timestamp", VStr "2025-06-23T20:03:08+00:00"); ("url", VStr "/api/test2")].

Definition three_days : list value :=
  [june_22_evening; june_23_evening; late_evening].

(** A quoted JSON string. *)
Definition quoted (s : string) : string :=
  String "034" s ++ String "034" EmptyString.

(** The line [{"@timestamp": "2025-06-22T20:03:08+00:00", "url": "/api/test1"}]. *)
Definition june_22_line : string :=
  "{" ++ quoted "@timestamp" ++ ": " ++ quoted "2025-06-22T20:03:08+00:00"
  ++ ", " ++ quoted "url" ++ ": " ++ quoted "/api/test1" ++ "}".

(** [json.loads] on the lines of the sample files. *)
Definition sample_loads (line : string) : decoded :=
  if (line =? june_22_line)%string then Decoded june_22_evening
  else JSONDecodeError "Expecting value: line 1 column 1 (char 0)".

Definition newline : string := String "010" EmptyString.

(** One log with a record, a line that is no JSON and a blank line; one
    file that cannot be opened; nothing else. *)
Definition sample_fs : filesystem :=
  fun path =>
    if (path =? "access.log")%string then
      Text [june_22_line ++ newline; "not json" ++ newline; newline] EndOfFile
    else if (path =? "locked.log")%string then
      Unreadable "[Errno 13] Permission denied: 'locked.log'"
    else Missing.

(** [datetime.fromisoformat] on the timestamps of the samples. *)
Definition sample_fromisoformat (s : string) : option datetime :=
  if (s =? "2025-06-22T23:30:00-05:00")%string then
    Some (mk_datetime 2025 6 22 23 30 0 0 (Some (-5 * 3600 * 1000000)))
  else if (s =? "2025-06-22T20:03:08+00:00")%string then
    Some (mk_datetime 2025 6 22 20 3 8 0 (Some 0))
  else if (s =? "2025-06-23T20:03:08+00:00")%string then
    Some (mk_datetime 2025 6 23 20 3 8 0 (Some 0))
  else None.

(** [dt.strftime("%Y-%m-%d")] on the dates of the samples, whose years have
    four digits. *)
Definition sample_strftime (dt : datetime) : string :=
  str_of_int (year dt) ++ "-" ++ zfill 2 (month dt) ++ "-" ++ zfill 2 (day dt).

(** The namespaces of the sample runs. *)
Definition empty_date_args : args :=
  mk_args ["access.log"] "average" (Some EmptyString).

Definition quiet_day_unknown_report_args : args :=
  mk_args ["access.log"] "unknown" (Some "2025-06-23").

Definition plain_args : args :=
  mk_args ["access.log"] "average" None.

Definition bad_date_args : args :=
  mk_args ["access.log"] "average" (Some "22-06-2025").

Definition two_files_args : args :=
  mk_args ["access.log"; "locked.log"] "average" (Some "2025-06-22").

Definition number_args : args :=
  mk_args ["numbers.log"] "average" (Some "2025-06-22").

(** The command lines of the sample runs. *)
Definition empty_date_argv : list string :=
  ["--file"; "access.log"; "--report"; "average"; "--date"; EmptyString].

Definition quiet_day_unknown_report_argv : list string :=
  ["--file"; "access.log"; "--report"; "unknown"; "--date"; "2025-06-23"].

Definition plain_argv : list string :=
  ["--file"; "access.log"; "--report"; "average"].

Definition bad_date_argv : list string :=
  ["--file"; "access.log"; "--report"; "average"; "--date"; "22-06-2025"].

Definition two_files_argv : list string :=
  ["--file"; "access.log"; "--file"; "locked.log"; "--report"; "average";
   "--date"; "2025-06-22"].

Definition number_argv : list string :=
  ["--file"; "numbers.log"; "--report"; "average"; "--date"; "2025-06-22"].

Definition same_argv (x y : list string) : bool :=
  if list_eq_dec string_dec x y then true else false.

(** [parse_arguments] on the command lines of the sample runs; on [--help]
    argparse prints the help and exits with 0, on a command line without
    [--file] it exits with 2. *)
Definition sample_parse (argv : list string) : parsed :=
  if same_argv argv empty_date_argv then Namespace empty_date_args
  else if same_argv argv quiet_day_unknown_report_argv
       then Namespace quiet_day_unknown_report_args
  else if same_argv argv plain_argv then Namespace plain_args
  else if same_argv argv bad_date_argv then Namespace bad_date_args
  else if same_argv argv two_files_argv then Namespace two_files_args
  else if same_argv argv number_argv then Namespace number_args
  else if same_argv argv ["--help"] then ArgparseExit ["usage: main.py"] 0
  else ArgparseExit [] 2.

(** The sample files, and three more: a log that holds bytes that are not
    UTF-8 after its first line, a log whose reading fails with an OSError
    after its first line, and a path in a directory that may not be
    searched. *)
Definition damaged_fs : filesystem :=
  fun path =>
    if (path =? "binary.log")%string then
      Text [june_22_line ++ newline] BadEncoding
    else if (path =? "flaky.log")%string then
      Text [june_22_line ++ newline] (ReadError "[Errno 5] Input/output error")
    else if (path =? "private/app.log")%string then Inaccessible
    else sample_fs path.

End Samples.

(** ** Measures of a run *)

Module Cover.
Import Py DateTime Main Spec.

(** A line that is not blank once stripped. *)
Definition nonblank (line : string) : bool :=
  negb (strip line =? "")%string.

(** The lines a source yields when it opens; none for any other path. *)
Definition source_lines (fs : filesystem) (file_path : string) : list string :=
  match fs file_path with
  | Text lines _ => lines
  | _ => []
  end.

(** The source has [read_log_files] print one line of its own: it is
    missing, it does not open, or reading it ends with an OSError. *)
Definition faulty (fs : filesystem) (file_path : string) : bool :=
  match fs file_path with
  | Missing | Unreadable _ | Text _ (ReadError _) => true
  | _ => false
  end.

(** The entries [r] returns, after [entries]; the exception [r] raises. *)
Definition extend (entries : list value) (r : result (list value))
    : result (list value) :=
  match r with
  | Ok es => Ok (entries ++ es)%list
  | Raise ex => Raise ex
  end.

(** The counts of a mapping, added up. *)
Fixpoint count_sum (d : stats) : Z :=
  match d with
  | [] => 0
  | (_, s) :: d' => count s + count_sum d'
  end.

(** The [total] column of a table, added up. *)
Fixpoint total_sum (rows : list row) : Z :=
  match rows with
  | [] => 0
  | r :: rows' => total r + total_sum rows'
  end.

(** The entry is one the aggregation loop gets past. *)
Definition passes (entry : value) : Prop :=
  exists c, contribution entry = Ok c.

(** The headers and alignments [generate_average_report] gives [tabulate]. *)
Definition report_table (rows : list (Z * row)) : text :=
  Tabulate rows [""; "handler"; "total"; "avg_response_time"]
    "plain" ["left"; "left"; "right"; "right"].

(** [json.loads] on the lines of the sample files, and on the line [42]. *)
Definition number_loads (line : string) : decoded :=
  if (line =? "42")%string then Decoded (VInt 42) else Samples.sample_loads line.

(** A log whose first line is the JSON number 42. *)
Definition number_fs : filesystem :=
  fun path =>
    if (path =? "numbers.log")%string then
      Text ["42" ++ Samples.newline; Samples.june_22_line ++ Samples.newline]
        EndOfFile
    else Samples.sample_fs path.

End Cover.

(** ** Proofs *)

Import Py DateTime Main Spec Cover.

(** *** The result monad *)

Lemma bind_ok {A B : Type} (c : result A) (k : A -> result B) (b : B) :
  bind c k = Ok b -> exists a, c = Ok a /\ k a = Ok b.
Proof.
  destruct c as [a|e]; simpl; intros H; [exists a; auto | discriminate].
Qed.

(** *** The dict of statistics *)

Section StatsDict.

Implicit Types (k e : string) (d : stats) (v : stat).

Lemma assoc_get_setdefault_same k d :
  assoc_get k (setdefault k d) = Some (item k d).
Proof.
  unfold item.
  induction d as [|[k' v'] d IH]; simpl.
  - now rewrite String.eqb_refl.
  - destruct (k' =? k)%string eqn:E; simpl; rewrite E; auto.
Qed.

Lemma assoc_get_setdefault_other k k' d :
  k' <> k -> assoc_get k' (setdefault k d) = assoc_get k' d.
Proof.
  intros Hne.
  induction d as [|[k0 v0] d IH]; simpl.
  - apply String.eqb_neq in Hne.
    rewrite String.eqb_sym. now rewrite Hne.
  - destruct (k0 =? k)%string eqn:E; simpl; auto.
    now rewrite IH.
Qed.

Lemma assoc_get_store_same k v d :
  assoc_get k d <> None -> assoc_get k (store k v d) = Some v.
Proof.
  induction d as [|[k0 v0] d IH]; simpl; intros H.
  - congruence.
  - destruct (k0 =? k)%string eqn:E; simpl; rewrite E; auto.
Qed.

Lemma assoc_get_store_other k k' v d :
  k' <> k -> assoc_get k' (store k v d) = assoc_get k' d.
Proof.
  intros Hne.
  induction d as [|[k0 v0] d IH]; simpl; auto.
  destruct (k0 =? k)%string eqn:E; simpl.
  - apply String.eqb_eq in E. subst k0.
    apply String.eqb_neq in Hne. rewrite String.eqb_sym in Hne.
    now rewrite Hne.
  - now rewrite IH.
Qed.

Lemma keys_store k v d : map fst (store k v d) = map fst d.
Proof.
  induction d as [|[k0 v0] d IH]; simpl; auto.
  destruct (k0 =? k)%string; simpl; congruence.
Qed.

Lemma setdefault_present k d :
  assoc_get k d <> None -> setdefault k d = d.
Proof.
  induction d as [|[k0 v0] d IH]; simpl; intros H.
  - congruence.
  - destruct (k0 =? k)%string; auto. now rewrite IH.
Qed.

Lemma store_store k v1 v2 d : store k v2 (store k v1 d) = store k v2 d.
Proof.
  induction d as [|[k0 v0] d IH]; simpl; auto.
  destruct (k0 =? k)%string eqn:E; simpl; rewrite E; congruence.
Qed.

Lemma assoc_get_In k (d : stats) v : assoc_get k d = Some v -> In (k, v) d.
Proof.
  induction d as [|[k0 v0] d IH]; simpl; intros H.
  - discriminate.
  - destruct (k0 =? k)%string eqn:E.
    + apply String.eqb_eq in E. left. congruence.
    + right. auto.
Qed.

Lemma In_assoc_get k (d : stats) v :
  NoDup (map fst d) -> In (k, v) d -> assoc_get k d = Some v.
Proof.
  induction d as [|[k0 v0] d IH]; simpl; intros Hnd Hin.
  - contradiction.
  - inversion Hnd as [|? ? Hnotin Hnd']; subst.
    destruct Hin as [Heq|Hin].
    + inversion Heq; subst. now rewrite String.eqb_refl.
    + destruct (k0 =? k)%string eqn:E.
      * apply String.eqb_eq in E. subst k0.
        exfalso. apply Hnotin. now apply (in_map fst) in Hin.
      * auto.
Qed.

Lemma assoc_get_keys k (d : stats) :
  assoc_get k d <> None <-> In k (map fst d).
Proof.
  induction d as [|[k0 v0] d IH]; simpl.
  - split; [congruence | contradiction].
  - destruct (k0 =? k)%string eqn:E.
    + apply String.eqb_eq in E. split; [auto | congruence].
    + apply String.eqb_neq in E. rewrite IH. split; [auto | intros [H|H]; congruence].
Qed.

Lemma keys_setdefault k d :
  map fst (setdefault k d)
  = if existsb (String.eqb k) (map fst d) then map fst d else (map fst d ++ [k])%list.
Proof.
  induction d as [|[k0 v0] d IH]; simpl; auto.
  rewrite (String.eqb_sym k k0).
  destruct (k0 =? k)%string eqn:E; simpl; auto.
  rewrite IH. now destruct (existsb (String.eqb k) (map fst d)).
Qed.

(** The item of [e] after one more record under it, and of any other key. *)
Lemma item_bump_same e x d :
  item e (bump e x d)
  = mk_stat (count (item e d) + 1) (total_time (item e d) + x)%float.
Proof.
  unfold bump. unfold item at 1.
  rewrite assoc_get_store_same; auto.
  rewrite assoc_get_setdefault_same. congruence.
Qed.

Lemma assoc_get_bump_other e k x d :
  k <> e -> assoc_get k (bump e x d) = assoc_get k d.
Proof.
  intros H. unfold bump.
  rewrite assoc_get_store_other by auto.
  now apply assoc_get_setdefault_other.
Qed.

Lemma assoc_get_bump_same e x d :
  assoc_get e (bump e x d)
  = Some (mk_stat (count (item e d) + 1) (total_time (item e d) + x)%float).
Proof.
  unfold bump. rewrite assoc_get_store_same; auto.
  rewrite assoc_get_setdefault_same. congruence.
Qed.

Lemma keys_bump e x d :
  map fst (bump e x d)
  = if existsb (String.eqb e) (map fst d) then map fst d else (map fst d ++ [e])%list.
Proof. unfold bump. rewrite keys_store. apply keys_setdefault. Qed.

End StatsDict.

(** *** The loop body is one [bump] of the entry's contribution *)

Lemma float_add_addend (t : float) (x : value) :
  float_add t x = bind (addend x) (fun f => Ok (t + f)%float).
Proof. destruct x as [| [|] | | | | |]; reflexivity. Qed.

Lemma aggregate_entry_contribution (entry : value) (d : stats) :
  aggregate_entry entry d
  = bind (contribution entry)
      (fun c => Ok (match c with
                    | Some (e, x) => bump e x d
                    | None => d
                    end)).
Proof.
  unfold aggregate_entry, contribution.
  destruct (get entry "url" (VStr "")) as [url|]; simpl; auto.
  destruct (truthy url); simpl; auto.
  destruct (endpoint_of url) as [e|]; simpl; auto.
  destruct (get entry "response_time" (VFloat 0)) as [rt|]; simpl; auto.
  rewrite float_add_addend.
  destruct (addend rt) as [x|]; simpl; auto.
  f_equal. unfold bump.
  set (d1 := setdefault e d).
  assert (H1 : assoc_get e d1 <> None).
  { unfold d1. rewrite assoc_get_setdefault_same. congruence. }
  set (v1 := mk_stat (count (item e d1) + 1) (total_time (item e d1))).
  assert (H2 : assoc_get e (store e v1 d1) = Some v1)
    by now apply assoc_get_store_same.
  rewrite (setdefault_present e (store e v1 d1)) by congruence.
  rewrite store_store.
  unfold item at 1 2. rewrite H2. simpl.
  unfold d1 at 1 2. unfold item at 1 2.
  rewrite assoc_get_setdefault_same. reflexivity.
Qed.

(** *** What a contribution says about the record *)

Lemma contribution_some (entry : value) (e : string) (x : float) :
  contribution entry = Ok (Some (e, x)) ->
  endpoint_key entry = Some e /\ response_time_of entry = x.
Proof.
  unfold contribution, endpoint_key, response_time_of.
  destruct entry as [| | | | | |fields]; simpl; try discriminate.
  destruct (assoc_get "url" fields) as [[|b|z|f|u|l|d0]|]; simpl;
    try discriminate.
  - destruct b; simpl; discriminate.
  - destruct (z =? 0); simpl; discriminate.
  - destruct (PrimFloat.eqb f 0); simpl; discriminate.
  - destruct (u =? "")%string; simpl; [discriminate|].
    destruct (assoc_get "response_time" fields) as [[|[|]|z|f| | |]|]; simpl;
      try discriminate; try (intros H; inversion H; now auto).
    unfold float_of_int.
    destruct (is_infinity _); simpl; [discriminate|].
    intros H; inversion H; auto.
  - destruct l; simpl; discriminate.
  - destruct d0; simpl; discriminate.
Qed.

Lemma contribution_none (entry : value) :
  contribution entry = Ok None -> endpoint_key entry = None.
Proof.
  unfold contribution, endpoint_key.
  destruct entry as [| | | | | |fields]; simpl; try discriminate.
  destruct (assoc_get "url" fields) as [[|b|z|f|u|l|d]|]; simpl; auto.
  destruct (u =? "")%string; simpl; auto.
  destruct (assoc_get "response_time" fields) as [rt|]; simpl;
    [destruct (addend rt)|]; simpl; discriminate.
Qed.

Lemma group_cons_in (e : string) (entry : value) (rest : list value) :
  endpoint_key entry = Some e -> group e (entry :: rest) = entry :: group e rest.
Proof.
  intros H. unfold group, grouped_under. simpl. rewrite H.
  now rewrite String.eqb_refl.
Qed.

Lemma group_cons_out (e : string) (entry : value) (rest : list value) :
  endpoint_key entry <> Some e -> group e (entry :: rest) = group e rest.
Proof.
  intros H. unfold group, grouped_under. simpl.
  destruct (endpoint_key entry) as [e'|]; auto.
  destruct (e' =? e)%string eqn:E; auto.
  apply String.eqb_eq in E. congruence.
Qed.

(** *** Lists of keys *)

Lemma filter_twice {A : Type} (f g : A -> bool) (l : list A) :
  filter f (filter g l) = filter (fun x => g x && f x) l.
Proof.
  induction l as [|a l IH]; simpl; auto.
  destruct (g a); simpl; [destruct (f a)|]; simpl; congruence.
Qed.

Lemma filter_all {A : Type} (l : list A) : filter (fun _ => true) l = l.
Proof. induction l; simpl; congruence. Qed.

Lemma existsb_eqb_In (k : string) (l : list string) :
  existsb (String.eqb k) l = true <-> In k l.
Proof.
  rewrite existsb_exists. split.
  - intros [x [Hin E]]. apply String.eqb_eq in E. congruence.
  - intros H. exists k. split; auto. apply String.eqb_refl.
Qed.

Lemma first_seen_In (k : string) (l : list string) :
  In k (first_seen l) <-> In k l.
Proof.
  induction l as [|a l IH]; simpl; [tauto|].
  rewrite filter_In, IH. split.
  - tauto.
  - intros [H|H]; auto.
    destruct (String.eqb_spec k a) as [E|E]; [left; congruence|].
    right. split; [exact H | reflexivity].
Qed.

Lemma first_seen_NoDup (l : list string) : NoDup (first_seen l).
Proof.
  induction l as [|a l IH]; simpl; constructor.
  - rewrite filter_In. intros [_ H].
    now rewrite String.eqb_refl in H.
  - now apply NoDup_filter.
Qed.

Lemma endpoint_keys_group (e : string) (entries : list value) :
  In e (endpoint_keys entries) <-> (0 < List.length (group e entries))%nat.
Proof.
  induction entries as [|entry rest IH]; simpl.
  - split; [contradiction | lia].
  - rewrite in_app_iff, IH.
    unfold group in *. simpl. unfold grouped_under at 2.
    destruct (endpoint_key entry) as [e'|]; simpl.
    + destruct (String.eqb_spec e' e) as [E|E]; simpl.
      * split; [lia | auto].
      * split; [intros [[H|[]]|H]; [congruence | auto] | auto].
    + split; [intros [[]|H]; auto | auto].
Qed.

(** *** The aggregation loop *)

Lemma aggregate_loop_items (entries : list value) :
  forall (d d' : stats) (e : string),
    aggregate_loop entries d = Ok d' ->
    item e d'
    = mk_stat (count (item e d) + Z.of_nat (List.length (group e entries)))
        (fold_left (fun t x => (t + x)%float)
           (map response_time_of (group e entries)) (total_time (item e d))).
Proof.
  induction entries as [|entry rest IH]; intros d d' e H; simpl in H.
  - inversion H; subst. simpl. rewrite Z.add_0_r. now destruct (item e d').
  - apply bind_ok in H. destruct H as [d1 [H1 H2]].
    rewrite aggregate_entry_contribution in H1.
    apply bind_ok in H1. destruct H1 as [c [Hc Hd1]].
    inversion Hd1; subst d1; clear Hd1.
    rewrite (IH _ _ e H2); clear IH H2.
    destruct c as [[e0 x]|].
    + apply contribution_some in Hc. destruct Hc as [Hk Hx].
      destruct (String.eqb_spec e e0) as [E|E].
      * subst e0. rewrite (group_cons_in _ _ _ Hk).
        rewrite item_bump_same. simpl. rewrite Hx.
        f_equal. lia.
      * rewrite group_cons_out by congruence.
        unfold item. now rewrite assoc_get_bump_other.
    + apply contribution_none in Hc.
      rewrite group_cons_out by congruence. reflexivity.
Qed.

Lemma aggregate_loop_keys (entries : list value) :
  forall (d d' : stats),
    aggregate_loop entries d = Ok d' ->
    map fst d'
    = (map fst d
       ++ filter (fun k => negb (existsb (String.eqb k) (map fst d)))
            (first_seen (endpoint_keys entries)))%list.
Proof.
  induction entries as [|entry rest IH]; intros d d' H; simpl in H.
  - inversion H; subst. simpl. now rewrite app_nil_r.
  - apply bind_ok in H. destruct H as [d1 [H1 H2]].
    rewrite aggregate_entry_contribution in H1.
    apply bind_ok in H1. destruct H1 as [c [Hc Hd1]].
    inversion Hd1; subst d1; clear Hd1.
    rewrite (IH _ _ H2); clear IH H2.
    destruct c as [[e0 x]|].
    + apply contribution_some in Hc. destruct Hc as [Hk _].
      simpl. rewrite Hk. simpl.
      rewrite keys_bump.
      destruct (existsb (String.eqb e0) (map fst d)) eqn:Hmem; simpl.
      * f_equal. rewrite filter_twice. apply filter_ext_in.
        intros k _.
        destruct (String.eqb_spec k e0) as [E|E]; simpl; auto.
        subst k. now rewrite Hmem.
      * rewrite <- app_assoc. simpl. do 2 f_equal.
        rewrite filter_twice. apply filter_ext.
        intros k. rewrite existsb_app. simpl.
        rewrite orb_false_r, negb_orb. apply andb_comm.
    + apply contribution_none in Hc. simpl. now rewrite Hc.
Qed.

Lemma aggregate_keys (entries : list value) (d : stats) :
  aggregate entries = Ok d -> map fst d = first_seen (endpoint_keys entries).
Proof.
  intros H. apply aggregate_loop_keys in H. rewrite H. simpl.
  apply filter_all.
Qed.

Lemma aggregate_NoDup (entries : list value) (d : stats) :
  aggregate entries = Ok d -> NoDup (map fst d).
Proof.
  intros H. rewrite (aggregate_keys _ _ H). apply first_seen_NoDup.
Qed.

(** Every item of the mapping has at least one record behind it. *)
Lemma aggregate_group_nonempty (entries : list value) (d : stats) (e : string) (s : stat) :
  aggregate entries = Ok d -> In (e, s) d -> (0 < List.length (group e entries))%nat.
Proof.
  intros H Hin. apply endpoint_keys_group.
  apply first_seen_In. rewrite <- (aggregate_keys _ _ H).
  now apply (in_map fst) in Hin.
Qed.

Lemma aggregate_item (entries : list value) (d : stats) (e : string) (s : stat) :
  aggregate entries = Ok d -> In (e, s) d ->
  s = mk_stat (Z.of_nat (List.length (group e entries)))
        (fsum (map response_time_of (group e entries))).
Proof.
  intros H Hin.
  pose proof (aggregate_NoDup _ _ H) as Hnd.
  pose proof (In_assoc_get _ _ _ Hnd Hin) as Hget.
  pose proof (aggregate_loop_items entries [] d e H) as Hit.
  unfold item in Hit at 1. rewrite Hget in Hit. exact Hit.
Qed.

(** *** The sort and the ranks *)

Lemma insert_row_perm (x : row) (l : list row) :
  Permutation (insert_row x l) (x :: l).
Proof.
  induction l as [|y l IH]; simpl; auto.
  destruct (total y <=? total x); auto.
  rewrite IH. apply perm_swap.
Qed.

Lemma sort_rows_perm (l : list row) : Permutation (sort_rows l) l.
Proof.
  induction l as [|x l IH]; simpl; auto.
  rewrite insert_row_perm. now constructor.
Qed.

Lemma insert_row_sorted (x : row) (l : list row) :
  StronglySorted (fun a b => total b <= total a) l ->
  StronglySorted (fun a b => total b <= total a) (insert_row x l).
Proof.
  induction l as [|y l IH]; simpl; intros Hs.
  - repeat constructor.
  - inversion Hs as [|? ? Hs' Hall]; subst.
    destruct (total y <=? total x) eqn:E.
    + apply Z.leb_le in E. constructor; auto.
      constructor; auto.
      eapply Forall_impl; [|exact Hall]. simpl. intros; lia.
    + apply Z.leb_gt in E. constructor; auto.
      eapply Permutation_Forall; [symmetry; apply insert_row_perm|].
      constructor; auto. lia.
Qed.

Lemma sort_rows_sorted (l : list row) :
  StronglySorted (fun a b => total b <= total a) (sort_rows l).
Proof.
  induction l as [|x l IH]; simpl; [constructor|].
  now apply insert_row_sorted.
Qed.

Lemma insert_row_ties (c : Z) (x : row) (l : list row) :
  filter (fun r => total r =? c) (insert_row x l)
  = filter (fun r => total r =? c) (x :: l).
Proof.
  induction l as [|y l IH]; simpl; auto.
  destruct (total y <=? total x) eqn:E; simpl; auto.
  apply Z.leb_gt in E.
  rewrite IH. simpl.
  destruct (total x =? c) eqn:Ex; auto.
  apply Z.eqb_eq in Ex.
  destruct (total y =? c) eqn:Ey; auto.
  apply Z.eqb_eq in Ey. lia.
Qed.

Lemma sort_rows_ties (c : Z) (l : list row) :
  filter (fun r => total r =? c) (sort_rows l)
  = filter (fun r => total r =? c) l.
Proof.
  induction l as [|x l IH]; simpl; auto.
  rewrite insert_row_ties. simpl. now rewrite IH.
Qed.

(** The head of a sorted list has the largest count. *)
Lemma sorted_head_max (x z : row) (l : list row) :
  StronglySorted (fun a b => total b <= total a) (x :: l) ->
  In z (x :: l) -> total z <= total x.
Proof.
  intros Hs Hin. inversion Hs as [|? ? _ Hall]; subst.
  destruct Hin as [->|Hin]; [lia|].
  rewrite Forall_forall in Hall. now apply Hall.
Qed.

(** Larger counts first and ties in their old order: that fixes the sorted
    list, so any sort that is stable returns what [sort_rows] returns. *)
Lemma sorted_ties_unique (l1 : list row) :
  forall l2 : list row,
    StronglySorted (fun a b => total b <= total a) l1 ->
    StronglySorted (fun a b => total b <= total a) l2 ->
    (forall c : Z,
        filter (fun r => total r =? c) l1 = filter (fun r => total r =? c) l2) ->
    l1 = l2.
Proof.
  induction l1 as [|x l1 IH]; intros l2 Hs1 Hs2 H.
  - destruct l2 as [|y l2]; [reflexivity|].
    specialize (H (total y)). simpl in H. rewrite Z.eqb_refl in H. discriminate.
  - destruct l2 as [|y l2].
    + specialize (H (total x)). simpl in H. rewrite Z.eqb_refl in H. discriminate.
    + assert (Hyx : total y <= total x).
      { apply (sorted_head_max x y l1 Hs1).
        assert (Hin : In y (filter (fun r => total r =? total y) (x :: l1))).
        { rewrite H. simpl. rewrite Z.eqb_refl. now left. }
        apply filter_In in Hin. tauto. }
      assert (Hxy : total x <= total y).
      { apply (sorted_head_max y x l2 Hs2).
        assert (Hin : In x (filter (fun r => total r =? total x) (y :: l2))).
        { rewrite <- H. simpl. rewrite Z.eqb_refl. now left. }
        apply filter_In in Hin. tauto. }
      assert (Heq : total y = total x) by lia.
      assert (Hhead : x = y).
      { specialize (H (total x)). simpl in H.
        rewrite Heq, Z.eqb_refl in H. congruence. }
      subst y. f_equal.
      inversion Hs1; inversion Hs2; subst.
      apply IH; auto.
      intros c. specialize (H c). simpl in H.
      destruct (total x =? c); congruence.
Qed.

Lemma stable_sort_is_sort_rows (l sorted : list row) :
  StronglySorted (fun a b => total b <= total a) sorted ->
  (forall c : Z,
      filter (fun r => total r =? c) sorted = filter (fun r => total r =? c) l) ->
  sorted = sort_rows l.
Proof.
  intros Hs Ht. apply sorted_ties_unique; auto.
  - apply sort_rows_sorted.
  - intros c. now rewrite sort_rows_ties.
Qed.

Lemma enumerate_snd {A : Type} (l : list A) :
  forall i, map snd (enumerate i l) = l.
Proof. induction l as [|x l IH]; simpl; intros; [|rewrite IH]; auto. Qed.


Lemma table_data_rows (d : stats) :
  map snd (table_data d) = sort_rows (map row_of d).
Proof. apply enumerate_snd. Qed.

(** A row of the table comes from an item of the mapping. *)
Lemma table_data_item (d : stats) (rk : Z) (r : row) :
  In (rk, r) (table_data d) -> exists s, In (endpoint r, s) d /\ r = row_of (endpoint r, s).
Proof.
  intros H. apply (in_map snd) in H. rewrite table_data_rows in H. simpl in H.
  apply (Permutation_in _ (sort_rows_perm _)) in H.
  apply in_map_iff in H. destruct H as [[e s] [Hr Hin]].
  subst r. exists s. simpl. auto.
Qed.

(** With a record behind the item, the average is the plain quotient. *)
Lemma avg_time_quotient (s : stat) :
  1 <= count s -> avg_time s = truediv (total_time s) (count s).
Proof.
  intros H. unfold avg_time.
  destruct (0 <? count s) eqn:E; auto.
  apply Z.ltb_ge in E. lia.
Qed.

(** *** The text of [:.3f] *)

(** An item of the mapping has a count of at least 1 and the plain quotient
    as its average. *)
Lemma aggregate_counts_and_totals_aux (entries : list value) (d : stats)
    (e : string) (s : stat) :
  aggregate entries = Ok d -> In (e, s) d ->
  1 <= count s /\ avg_time s = truediv (total_time s) (count s).
Proof.
  intros H Hin.
  pose proof (aggregate_item _ _ _ _ H Hin) as Hs.
  pose proof (aggregate_group_nonempty _ _ _ _ H Hin) as Hpos.
  assert (H1 : 1 <= count s) by (rewrite Hs; simpl; lia).
  split; [exact H1 | now apply avg_time_quotient].
Qed.


(** *** The aggregate and the table *)

(** C6.  In the mapping that aggregation produces, the count of every
    endpoint is the number of records grouped under it and its total_time
    is the sum of their response times; the count is at least 1, so the
    average is the quotient total_time / count and the branch for a zero
    count is never taken. *)
Theorem aggregate_counts_and_totals (entries : list value) (d : stats)
    (e : string) (s : stat) :
  aggregate entries = Ok d ->
  In (e, s) d ->
  count s = Z.of_nat (List.length (group e entries))
  /\ total_time s = fsum (map response_time_of (group e entries))
  /\ 1 <= count s
  /\ avg_time s = truediv (total_time s) (count s).
Proof.
  intros H Hin.
  pose proof (aggregate_item _ _ _ _ H Hin) as Hs.
  pose proof (aggregate_group_nonempty _ _ _ _ H Hin) as Hpos.
  assert (Hc : count s = Z.of_nat (List.length (group e entries)))
    by (rewrite Hs; reflexivity).
  assert (H1 : 1 <= count s) by lia.
  repeat split; auto.
  - rewrite Hs; reflexivity.
  - now apply avg_time_quotient.
Qed.

Lemma aggregate_counts_and_totals_two_hits :
  count (mk_stat 2 (0 + 0.1 + 0.2)%float)
  = Z.of_nat (List.length (group "/api/test" Samples.two_hits))
  /\ total_time (mk_stat 2 (0 + 0.1 + 0.2)%float)
     = fsum (map response_time_of (group "/api/test" Samples.two_hits))
  /\ 1 <= count (mk_stat 2 (0 + 0.1 + 0.2)%float)
  /\ avg_time (mk_stat 2 (0 + 0.1 + 0.2)%float)
     = truediv (total_time (mk_stat 2 (0 + 0.1 + 0.2)%float))
         (count (mk_stat 2 (0 + 0.1 + 0.2)%float)).
Proof.
  apply (aggregate_counts_and_totals Samples.two_hits Samples.two_hits_stats).
  - vm_compute. reflexivity.
  - left. reflexivity.
Defined.



(** The sample with counts 1, 3 and 1: the endpoint seen three times comes
    first, the two seen once follow in the order they were first seen. *)
Example counts_1_3_1_table :
  map (fun ir => (fst ir, endpoint (snd ir), total (snd ir)))
    (table_data Samples.counts_1_3_1_stats)
  = [(0, "/api/common", 3); (1, "/api/rare", 1); (2, "/api/other", 1)].
Proof. vm_compute. reflexivity. Qed.

(** C8, at the inputs that show it.  For response times 0.1 and 0.2 on
    one endpoint the code hands [tabulate] the cell [0.150]: the average
    formatted by [:.3f], correctly rounded, ties to even (0.0625 gives
    0.062, 0.1875 gives 0.188, 0.0015 gives 0.002).  What [tabulate] makes
    of the cell is not modelled. *)
Theorem average_cell_of_two_hits :
  generate_average_report Samples.two_hits
  = Ok (report_table [(0, mk_row "/api/test" 2 "0.150")])
  /\ generate_average_report [Samples.hit "/a" 0.0625%float]
     = Ok (report_table [(0, mk_row "/a" 1 "0.062")])
  /\ generate_average_report [Samples.hit "/a" 0.1875%float]
     = Ok (report_table [(0, mk_row "/a" 1 "0.188")])
  /\ generate_average_report [Samples.hit "/a" 0.0015%float]
     = Ok (report_table [(0, mk_row "/a" 1 "0.002")]).
Proof. vm_compute. repeat split. Qed.

(** *** One record *)

Lemma split_hd (u : string) :
  exists rest : string,
    u = hd EmptyString (split "?" u) ++ rest
    /\ has_char "?" (hd EmptyString (split "?" u)) = false
    /\ (rest = EmptyString \/ exists q, rest = String "?" q).
Proof.
  induction u as [|c u IH]; simpl.
  - exists EmptyString. auto.
  - destruct (Ascii.eqb_spec c "?") as [E|E].
    + subst c. exists (String "?" u). simpl. eauto.
    + destruct IH as [rest [Hu [Hc Hr]]].
      exists rest.
      destruct (split "?" u) as [|p ps]; simpl in *.
      * apply Ascii.eqb_neq in E. rewrite E. subst u. auto.
      * apply Ascii.eqb_neq in E. rewrite E, Hc. rewrite Hu at 1. auto.
Qed.

Lemma split_hd_prefix (p q : string) :
  has_char "?" p = false ->
  hd EmptyString (split "?" (p ++ String "?" q)) = p.
Proof.
  induction p as [|c p IH]; simpl; intros H.
  - reflexivity.
  - apply orb_false_iff in H. destruct H as [Hc Hp].
    rewrite Hc. specialize (IH Hp).
    destruct (split "?" (p ++ String "?" q)); simpl in *; congruence.
Qed.

Lemma split_hd_whole (p : string) :
  has_char "?" p = false -> hd EmptyString (split "?" p) = p.
Proof.
  induction p as [|c p IH]; simpl; intros H.
  - reflexivity.
  - apply orb_false_iff in H. destruct H as [Hc Hp].
    rewrite Hc. specialize (IH Hp).
    destruct (split "?" p); simpl in *; congruence.
Qed.

Lemma bump_adds (e : string) (x : float) (d : stats) : adds e x d (bump e x d).
Proof.
  unfold adds. rewrite item_bump_same. simpl.
  repeat split; auto.
  intros k Hk. now apply assoc_get_bump_other.
Qed.

(** A record with a non-empty str [url] and a time that can be added is
    one [bump]. *)
Lemma aggregate_entry_bump (fields : list (string * value)) (u : string)
    (x : float) (d : stats) :
  assoc_get "url" fields = Some (VStr u) -> u <> EmptyString ->
  addend (match assoc_get "response_time" fields with
          | Some v => v
          | None => VFloat 0%float
          end) = Ok x ->
  aggregate_entry (VDict fields) d
  = Ok (bump (hd EmptyString (split "?" u)) x d).
Proof.
  intros Hu Hne Hx.
  rewrite aggregate_entry_contribution.
  unfold contribution. simpl. rewrite Hu. simpl.
  apply String.eqb_neq in Hne. rewrite Hne. simpl.
  rewrite Hx. reflexivity.
Qed.

Lemma aggregate_entry_raise (fields : list (string * value)) (u : string)
    (ex : exn) (d : stats) :
  assoc_get "url" fields = Some (VStr u) -> u <> EmptyString ->
  addend (match assoc_get "response_time" fields with
          | Some v => v
          | None => VFloat 0%float
          end) = Raise ex ->
  aggregate_entry (VDict fields) d = Raise ex.
Proof.
  intros Hu Hne Hx.
  rewrite aggregate_entry_contribution.
  unfold contribution. simpl. rewrite Hu. simpl.
  apply String.eqb_neq in Hne. rewrite Hne. simpl.
  rewrite Hx. reflexivity.
Qed.

(** C2, as the code has it.  A record whose [url] is a non-empty str adds 1
    to the count of its endpoint and its response time to the endpoint's
    total_time: 0.0 when the record has no response_time, the number when
    it is a float or an int within the float range.  A response_time that
    is present and is null, a str, a list or a dict is not replaced by 0.0:
    the aggregation raises TypeError. *)
Theorem contributing_record_adds_time (fields : list (string * value))
    (u : string) (d : stats) :
  assoc_get "url" fields = Some (VStr u) ->
  u <> EmptyString ->
  let e := hd EmptyString (split "?" u) in
  (assoc_get "response_time" fields = None ->
   exists d', aggregate_entry (VDict fields) d = Ok d' /\ adds e 0%float d d')
  /\ (forall f : float,
        assoc_get "response_time" fields = Some (VFloat f) ->
        exists d', aggregate_entry (VDict fields) d = Ok d' /\ adds e f d d')
  /\ (forall (z : Z) (f : float),
        assoc_get "response_time" fields = Some (VInt z) ->
        float_of_int z = Ok f ->
        exists d', aggregate_entry (VDict fields) d = Ok d' /\ adds e f d d')
  /\ (forall v : value,
        assoc_get "response_time" fields = Some v ->
        match v with
        | VNone | VStr _ | VList _ | VDict _ => True
        | _ => False
        end ->
        aggregate_entry (VDict fields) d = Raise TypeError).
Proof.
  intros Hu Hne e.
  split; [|split; [|split]].
  - intros Hrt. exists (bump e 0%float d). split; [|apply bump_adds].
    apply aggregate_entry_bump; auto. now rewrite Hrt.
  - intros f Hrt. exists (bump e f d). split; [|apply bump_adds].
    apply aggregate_entry_bump; auto. now rewrite Hrt.
  - intros z f Hrt Hf. exists (bump e f d). split; [|apply bump_adds].
    apply aggregate_entry_bump; auto. now rewrite Hrt.
  - intros v Hrt Hv.
    apply (aggregate_entry_raise fields u); auto.
    rewrite Hrt. destruct v; simpl; auto; contradiction.
Qed.

Lemma contributing_record_adds_time_hit :
  let fields := [("url", VStr "/api/test?param=1"); ("response_time", VFloat 0.1)] in
  let e := hd EmptyString (split "?" "/api/test?param=1") in
  (assoc_get "response_time" fields = None ->
   exists d', aggregate_entry (VDict fields) [] = Ok d' /\ adds e 0%float [] d')
  /\ (forall f : float,
        assoc_get "response_time" fields = Some (VFloat f) ->
        exists d', aggregate_entry (VDict fields) [] = Ok d' /\ adds e f [] d')
  /\ (forall (z : Z) (f : float),
        assoc_get "response_time" fields = Some (VInt z) ->
        float_of_int z = Ok f ->
        exists d', aggregate_entry (VDict fields) [] = Ok d' /\ adds e f [] d')
  /\ (forall v : value,
        assoc_get "response_time" fields = Some v ->
        match v with
        | VNone | VStr _ | VList _ | VDict _ => True
        | _ => False
        end ->
        aggregate_entry (VDict fields) [] = Raise TypeError).
Proof.
  apply (contributing_record_adds_time
           [("url", VStr "/api/test?param=1"); ("response_time", VFloat 0.1)]
           "/api/test?param=1" []).
  - reflexivity.
  - discriminate.
Defined.

(** C2 as worded fails: a record with a str url and the response time
    ["fast"] is grouped under an endpoint, yet it is not counted with 0.0;
    the aggregation raises TypeError. *)
Lemma text_response_time_not_defaulted :
  endpoint_key Samples.slow_text = Some "/a"
  /\ aggregate_entry Samples.slow_text [] = Raise TypeError
  /\ generate_average_report [Samples.slow_text] = Raise TypeError
  /\ ~ counted_with_default Samples.slow_text [].
Proof.
  repeat split; try reflexivity.
  intros [e [d' [_ [H _]]]]. discriminate H.
Qed.

(** C5.  The endpoint of a record is the text of its url before the first
    [?], the whole url when it has none; taking the endpoint of an endpoint
    changes nothing, and urls that differ in their query only have the same
    endpoint.  Aggregating a record touches the item of its endpoint and no
    other; a record with no url or an empty one leaves the mapping as it
    was. *)
Theorem endpoint_strips_query :
  (forall u : string,
      exists rest : string,
        endpoint_of (VStr u) = Ok (hd EmptyString (split "?" u))
        /\ u = hd EmptyString (split "?" u) ++ rest
        /\ has_char "?" (hd EmptyString (split "?" u)) = false
        /\ (rest = EmptyString \/ exists q, rest = String "?" q))
  /\ (forall u e : string,
        endpoint_of (VStr u) = Ok e -> endpoint_of (VStr e) = Ok e)
  /\ (forall p q1 q2 : string,
        has_char "?" p = false ->
        endpoint_of (VStr (p ++ String "?" q1)) = Ok p
        /\ endpoint_of (VStr (p ++ String "?" q2)) = Ok p
        /\ endpoint_of (VStr p) = Ok p)
  /\ (forall (fields : list (string * value)) (u : string) (d d' : stats),
        assoc_get "url" fields = Some (VStr u) ->
        u <> EmptyString ->
        aggregate_entry (VDict fields) d = Ok d' ->
        endpoint_key (VDict fields) = Some (hd EmptyString (split "?" u))
        /\ assoc_get (hd EmptyString (split "?" u)) d' <> None
        /\ forall k : string,
             k <> hd EmptyString (split "?" u) -> assoc_get k d' = assoc_get k d)
  /\ (forall (fields : list (string * value)) (d : stats),
        assoc_get "url" fields = None
        \/ assoc_get "url" fields = Some (VStr EmptyString) ->
        endpoint_key (VDict fields) = None
        /\ aggregate_entry (VDict fields) d = Ok d).
Proof.
  split; [|split; [|split; [|split]]].
  - intros u. destruct (split_hd u) as [rest [H1 [H2 H3]]].
    exists rest. auto.
  - intros u e H. simpl in H. inversion H; subst. simpl.
    destruct (split_hd u) as [rest [_ [Hc _]]].
    now rewrite split_hd_whole.
  - intros p q1 q2 Hp. simpl.
    rewrite !split_hd_prefix by exact Hp.
    now rewrite split_hd_whole.
  - intros fields u d d' Hu Hne H.
    rewrite aggregate_entry_contribution in H.
    apply bind_ok in H. destruct H as [c [Hc Hd']].
    assert (Hk : endpoint_key (VDict fields) = Some (hd EmptyString (split "?" u))).
    { unfold endpoint_key. rewrite Hu.
      apply String.eqb_neq in Hne. now rewrite Hne. }
    split; [exact Hk|].
    destruct c as [[e x]|].
    + apply contribution_some in Hc. destruct Hc as [Hk' _].
      rewrite Hk in Hk'. inversion Hk'; subst e. inversion Hd'; subst d'.
      split.
      * rewrite assoc_get_bump_same. discriminate.
      * intros k Hne'. now apply assoc_get_bump_other.
    + apply contribution_none in Hc. congruence.
  - intros fields d H.
    unfold endpoint_key, aggregate_entry. simpl.
    destruct H as [H|H]; rewrite H; simpl; auto.
Qed.

Lemma endpoint_strips_query_params :
  endpoint_of (VStr ("/api/test" ++ String "?" "param=1")) = Ok "/api/test"
  /\ endpoint_of (VStr ("/api/test" ++ String "?" "param=2")) = Ok "/api/test"
  /\ endpoint_of (VStr "/api/test") = Ok "/api/test".
Proof.
  apply (proj1 (proj2 (proj2 endpoint_strips_query))).
  reflexivity.
Defined.

(** *** Ingestion *)

Section IngestProofs.

Variable json_loads : string -> decoded.
Variable fs : filesystem.

(** When the loop over the lines ends without an exception, it has
    appended the decoded lines and printed the warnings of the others. *)
Lemma read_lines_returns (file_path : string) (lines : list string) :
  forall (n : Z) (entries entries' : list value) (out out' : list string),
    read_lines json_loads file_path n lines entries out = (Ok entries', out') ->
    entries' = (entries ++ decoded_lines json_loads lines)%list
    /\ out' = (out ++ flat_map (line_warning json_loads file_path)
                        (enumerate n lines))%list.
Proof.
  induction lines as [|line rest IH]; intros n entries entries' out out' H;
    cbn [read_lines decoded_lines flat_map enumerate] in *.
  - inversion H; subst. now rewrite !app_nil_r.
  - unfold line_warning at 1. cbn [fst snd].
    fold (decoded_lines json_loads rest).
    destruct (strip line =? "")%string.
    + apply IH in H. exact H.
    + destruct (json_loads (strip line)) as [v|msg|ex].
      * apply IH in H. destruct H as [-> ->].
        now rewrite <- app_assoc.
      * apply IH in H. destruct H as [-> ->].
        now rewrite <- app_assoc.
      * discriminate.
Qed.

(** It ends without an exception when [json.loads] raises nothing but
    JSONDecodeError on the lines. *)
Lemma read_lines_clean (file_path : string) (lines : list string) :
  forallb (decodable_line json_loads) lines = true ->
  forall (n : Z) (entries : list value) (out : list string),
    exists entries' out',
      read_lines json_loads file_path n lines entries out = (Ok entries', out').
Proof.
  induction lines as [|line rest IH]; intros Hc n entries out;
    cbn [read_lines forallb] in *.
  - eauto.
  - apply andb_true_iff in Hc. destruct Hc as [Hline Hrest].
    unfold decodable_line in Hline.
    destruct (strip line =? "")%string; [now apply IH|].
    destruct (json_loads (strip line)) as [v|msg|ex];
      [now apply IH | now apply IH | discriminate].
Qed.

Lemma read_opened_returns (file_path : string) (lines : list string)
    (stop : read_end) (entries entries' : list value) (out out' : list string) :
  read_opened json_loads file_path lines stop entries out = (Ok entries', out') ->
  entries' = (entries ++ decoded_lines json_loads lines)%list
  /\ out' = (out ++ line_warnings json_loads file_path lines
                 ++ match stop with
                    | ReadError e =>
                        [("Error reading file " ++ file_path ++ ": " ++ e)%string]
                    | _ => []
                    end)%list.
Proof.
  unfold read_opened, line_warnings.
  destruct (read_lines json_loads file_path 1 lines entries out)
    as [[e1|ex] o1] eqn:Hl; [|discriminate].
  apply read_lines_returns in Hl. destruct Hl as [-> ->].
  destruct stop as [|e|]; intros H; inversion H; subst.
  - now rewrite app_nil_r.
  - now rewrite <- app_assoc.
Qed.

Lemma read_files_returns (file_paths : list string) :
  forall (entries entries' : list value) (out out' : list string),
    read_files json_loads fs file_paths entries out = (Ok entries', out') ->
    entries' = (entries ++ flat_map (source_records json_loads fs) file_paths)%list
    /\ out' = (out ++ flat_map (source_warnings json_loads fs) file_paths)%list.
Proof.
  induction file_paths as [|p rest IH]; intros entries entries' out out' H;
    cbn [read_files flat_map] in *.
  - inversion H; subst. now rewrite !app_nil_r.
  - unfold source_records at 1, source_warnings at 1.
    destruct (fs p) as [| |e|lines stop].
    + apply IH in H. destruct H as [-> ->].
      now rewrite <- app_assoc.
    + discriminate.
    + apply IH in H. destruct H as [-> ->].
      now rewrite <- app_assoc.
    + destruct (read_opened json_loads p lines stop entries out)
        as [[e1|ex] o1] eqn:Ho; [|discriminate].
      apply read_opened_returns in Ho. destruct Ho as [-> ->].
      apply IH in H. destruct H as [-> ->].
      now rewrite <- !app_assoc.
Qed.

Lemma read_files_clean (file_paths : list string) :
  Forall (fun p => clean_source json_loads fs p = true) file_paths ->
  forall (entries : list value) (out : list string),
    exists entries' out',
      read_files json_loads fs file_paths entries out = (Ok entries', out').
Proof.
  induction 1 as [|p rest Hp _ IH]; intros entries out; cbn [read_files].
  - eauto.
  - unfold clean_source in Hp.
    destruct (fs p) as [| |e|lines stop]; [apply IH | discriminate | apply IH |].
    apply andb_true_iff in Hp. destruct Hp as [Hlines Hstop].
    unfold read_opened.
    destruct (read_lines_clean p lines Hlines 1 entries out) as [e1 [o1 Hl]].
    rewrite Hl. destruct stop; [apply IH | apply IH | discriminate].
Qed.

Lemma extend_nil (r : result (list value)) : extend [] r = r.
Proof. now destruct r. Qed.

(** The accumulators only stand in front of what the loops add. *)
Lemma read_lines_from (file_path : string) (lines : list string) :
  forall (n : Z) (entries : list value) (out : list string),
    read_lines json_loads file_path n lines entries out
    = (extend entries (fst (read_lines json_loads file_path n lines [] [])),
       (out ++ snd (read_lines json_loads file_path n lines [] []))%list).
Proof.
  induction lines as [|line rest IH]; intros n entries out; cbn [read_lines].
  - cbn. now rewrite !app_nil_r.
  - destruct (strip line =? "")%string; [apply IH|].
    destruct (json_loads (strip line)) as [v|msg|ex].
    + rewrite (IH _ (entries ++ [v])%list out), (IH _ ([] ++ [v])%list []).
      cbn [fst snd app].
      destruct (fst (read_lines json_loads file_path (n + 1) rest [] []));
        cbn [extend app]; [now rewrite <- app_assoc | reflexivity].
    + rewrite (IH _ entries (out ++ _)%list), (IH _ [] ([] ++ _)%list).
      cbn [fst snd app]. now rewrite extend_nil, <- app_assoc.
    + cbn. now rewrite app_nil_r.
Qed.

Lemma read_opened_from (file_path : string) (lines : list string)
    (stop : read_end) (entries : list value) (out : list string) :
  read_opened json_loads file_path lines stop entries out
  = (extend entries (fst (read_opened json_loads file_path lines stop [] [])),
     (out ++ snd (read_opened json_loads file_path lines stop [] []))%list).
Proof.
  unfold read_opened. rewrite (read_lines_from _ _ _ entries out).
  destruct (read_lines json_loads file_path 1 lines [] []) as [[e1|ex] o1];
    cbn [fst snd extend]; [|reflexivity].
  destruct stop; cbn [fst snd extend]; try reflexivity.
  now rewrite app_assoc.
Qed.

Lemma extend_extend (e1 e2 : list value) (r : result (list value)) :
  extend e1 (extend e2 r) = extend (e1 ++ e2) r.
Proof. destruct r; cbn [extend]; [now rewrite app_assoc | reflexivity]. Qed.

Lemma read_files_from (file_paths : list string) :
  forall (entries : list value) (out : list string),
    read_files json_loads fs file_paths entries out
    = (extend entries (fst (read_files json_loads fs file_paths [] [])),
       (out ++ snd (read_files json_loads fs file_paths [] []))%list).
Proof.
  induction file_paths as [|p rest IH]; intros entries out; cbn [read_files].
  - cbn. now rewrite !app_nil_r.
  - destruct (fs p) as [| |e|lines stop].
    + rewrite (IH entries (out ++ _)%list), (IH [] ([] ++ _)%list).
      cbn [fst snd app]. now rewrite extend_nil, <- app_assoc.
    + cbn. now rewrite app_nil_r.
    + rewrite (IH entries (out ++ _)%list), (IH [] ([] ++ _)%list).
      cbn [fst snd app]. now rewrite extend_nil, <- app_assoc.
    + rewrite (read_opened_from p lines stop entries out).
      destruct (read_opened json_loads p lines stop [] []) as [[e1|ex] o1];
        cbn [fst snd extend app]; [|reflexivity].
      rewrite (IH (entries ++ e1)%list (out ++ o1)%list), (IH e1 o1).
      cbn [fst snd]. now rewrite extend_extend, <- app_assoc.
Qed.

(** Two lists of sources, one after the other. *)
Lemma read_files_app (ps1 ps2 : list string) :
  forall (entries : list value) (out : list string),
    read_files json_loads fs (ps1 ++ ps2) entries out
    = match read_files json_loads fs ps1 entries out with
      | (Ok e1, o1) => read_files json_loads fs ps2 e1 o1
      | (Raise ex, o1) => (Raise ex, o1)
      end.
Proof.
  induction ps1 as [|p rest IH]; intros entries out; cbn [app read_files].
  - reflexivity.
  - destruct (fs p) as [| |e|lines stop]; try apply IH; [reflexivity|].
    destruct (read_opened json_loads p lines stop entries out) as [[e1|ex] o1];
      [apply IH | reflexivity].
Qed.

End IngestProofs.

(** C4, at an input that shows it.  A log that holds bytes that are not
    UTF-8 is not skipped: [read_log_files] raises UnicodeDecodeError and
    returns nothing, the record of the log read before it included; only
    the warning printed so far is left. *)
Theorem undecodable_source_aborts_ingestion :
  read_log_files Samples.sample_loads Samples.damaged_fs ["access.log"]
  = (Ok [Samples.june_22_evening],
     ["Warning: Invalid JSON in access.log at line 2: "
        ++ "Expecting value: line 1 column 1 (char 0)"])
  /\ read_log_files Samples.sample_loads Samples.damaged_fs
       ["access.log"; "binary.log"]
     = (Raise UnicodeDecodeError,
        ["Warning: Invalid JSON in access.log at line 2: "
           ++ "Expecting value: line 1 column 1 (char 0)"]).
Proof. vm_compute. split; reflexivity. Qed.

(** *** The date filter *)

Section DateFilterProofs.

Variable fromisoformat : string -> option datetime.
Variable strftime_ymd : datetime -> string.

(** One turn of the loop on a record. *)
Lemma filter_loop_step (date_filter : string) (fields : list (string * value))
    (rest filtered : list value) :
  filter_loop fromisoformat strftime_ymd (VDict fields :: rest) date_filter filtered
  = filter_loop fromisoformat strftime_ymd rest date_filter
      (if on_written_date fromisoformat strftime_ymd date_filter (VDict fields)
       then (filtered ++ [VDict fields])%list else filtered).
Proof.
  unfold on_written_date.
  cbn [filter_loop get bind].
  destruct (assoc_get "@timestamp" fields) as [[|b|z|f|s|l|d]|];
    cbn [truthy entry_date].
  - reflexivity.
  - now destruct b.
  - now destruct (negb (z =? 0)).
  - now destruct (negb (PrimFloat.eqb f 0)).
  - destruct (s =? "")%string; cbn [negb]; [reflexivity|].
    destruct (fromisoformat (replace "Z" "+00:00" s)) as [dt|];
      [now destruct (strftime_ymd dt =? date_filter)%string | reflexivity].
  - now destruct l.
  - now destruct d.
  - change (truthy (VStr "")) with false. reflexivity.
Qed.

Lemma filter_loop_spec (date_filter : string) (entries : list value) :
  forall filtered : list value,
    Forall (fun entry => is_dict entry = true) entries ->
    filter_loop fromisoformat strftime_ymd entries date_filter filtered
    = Ok (filtered
          ++ filter (on_written_date fromisoformat strftime_ymd date_filter)
               entries)%list.
Proof.
  induction entries as [|entry rest IH]; intros filtered Hd.
  - cbn [filter_loop filter]. now rewrite app_nil_r.
  - inversion Hd as [|? ? Hentry Hrest]; subst.
    destruct entry as [| | | | | |fields]; try discriminate.
    rewrite filter_loop_step, (IH _ Hrest). cbn [filter].
    destruct (on_written_date fromisoformat strftime_ymd date_filter (VDict fields)).
    + now rewrite <- app_assoc.
    + reflexivity.
Qed.

Lemma on_written_date_iff (date_filter : string) (entry : value) :
  on_written_date fromisoformat strftime_ymd date_filter entry = true
  <-> exists (fields : list (string * value)) (s : string) (dt : datetime),
        entry = VDict fields
        /\ assoc_get "@timestamp" fields = Some (VStr s)
        /\ s <> EmptyString
        /\ fromisoformat (replace "Z" "+00:00" s) = Some dt
        /\ strftime_ymd dt = date_filter.
Proof.
  unfold on_written_date. split.
  - destruct entry as [| | | | | |fields]; try discriminate.
    destruct (assoc_get "@timestamp" fields) as [[| | | |s| |]|] eqn:Ht;
      try discriminate.
    destruct (String.eqb_spec s "") as [Es|Es]; [discriminate|].
    destruct (fromisoformat (replace "Z" "+00:00" s)) as [dt|] eqn:E;
      try discriminate.
    intros H. apply String.eqb_eq in H.
    exists fields, s, dt. repeat split; auto.
  - intros [fields [s [dt [He [Ht [Hs [Hp Hd]]]]]]]. subst entry.
    rewrite Ht. apply String.eqb_neq in Hs. rewrite Hs, Hp.
    now apply String.eqb_eq.
Qed.

End DateFilterProofs.

(** C1, as the code has it.  Whatever [fromisoformat] accepts and however
    [strftime] writes a date: for records (dicts), [filter_by_date]
    returns, in their order, those whose [@timestamp] is a non-empty str
    that [fromisoformat] accepts once every [Z] in it is replaced by
    [+00:00] and for which [strftime("%Y-%m-%d")] of the parsed value, the
    date as the timestamp has it in its own offset, is the date asked for;
    a record with no timestamp, or one that is not a str or does not
    parse, is left out. *)
Theorem filter_by_date_written_date
    (fromisoformat : string -> option datetime)
    (strftime_ymd : datetime -> string)
    (entries : list value) (date_filter : string) :
  Forall (fun entry => is_dict entry = true) entries ->
  filter_by_date fromisoformat strftime_ymd entries date_filter
  = Ok (filter (on_written_date fromisoformat strftime_ymd date_filter) entries)
  /\ forall entry : value,
       on_written_date fromisoformat strftime_ymd date_filter entry = true
       <-> exists (fields : list (string * value)) (s : string) (dt : datetime),
             entry = VDict fields
             /\ assoc_get "@timestamp" fields = Some (VStr s)
             /\ s <> EmptyString
             /\ fromisoformat (replace "Z" "+00:00" s) = Some dt
             /\ strftime_ymd dt = date_filter.
Proof.
  intros Hd. split.
  - unfold filter_by_date. now rewrite filter_loop_spec.
  - apply on_written_date_iff.
Qed.

Lemma filter_by_date_written_date_three_days :
  filter_by_date Samples.sample_fromisoformat Samples.sample_strftime
    Samples.three_days "2025-06-22"
  = Ok (filter (on_written_date Samples.sample_fromisoformat
                  Samples.sample_strftime "2025-06-22") Samples.three_days)
  /\ forall entry : value,
       on_written_date Samples.sample_fromisoformat Samples.sample_strftime
         "2025-06-22" entry = true
       <-> exists (fields : list (string * value)) (s : string) (dt : datetime),
             entry = VDict fields
             /\ assoc_get "@timestamp" fields = Some (VStr s)
             /\ s <> EmptyString
             /\ Samples.sample_fromisoformat (replace "Z" "+00:00" s) = Some dt
             /\ Samples.sample_strftime dt = "2025-06-22".
Proof.
  apply (filter_by_date_written_date Samples.sample_fromisoformat
           Samples.sample_strftime Samples.three_days "2025-06-22").
  repeat constructor.
Defined.

(** C1 as worded fails.  The record stamped 2025-06-22T23:30:00-05:00 lies
    on 2025-06-23 at UTC.  Asked for 2025-06-22 the filter keeps it, asked
    for 2025-06-23 it drops it: the date compared is the one written in the
    timestamp, not the date at UTC. *)
Lemma filter_by_date_not_utc :
  option_map utc_date (Samples.sample_fromisoformat "2025-06-22T23:30:00-05:00")
  = Some (2025, 6, 23)
  /\ filter_by_date Samples.sample_fromisoformat Samples.sample_strftime
       [Samples.late_evening] (isoformat_date (2025, 6, 22))
     = Ok [Samples.late_evening]
  /\ filter (on_utc_date Samples.sample_fromisoformat (2025, 6, 22))
       [Samples.late_evening] = []
  /\ filter_by_date Samples.sample_fromisoformat Samples.sample_strftime
       [Samples.late_evening] (isoformat_date (2025, 6, 23))
     = Ok []
  /\ filter (on_utc_date Samples.sample_fromisoformat (2025, 6, 23))
       [Samples.late_evening]
     = [Samples.late_evening].
Proof. vm_compute. repeat split. Qed.

(** *** Records that make the aggregation raise, and records that cannot *)

Lemma float_typed_contribution (entry : value) :
  float_typed_record entry = true -> exists c, contribution entry = Ok c.
Proof.
  unfold float_typed_record, contribution.
  destruct entry as [| | | | | |fields]; try discriminate.
  cbn [get bind].
  destruct (assoc_get "url" fields) as [url|].
  - destruct (truthy url) eqn:T.
    + destruct url as [| | | |u| |]; try discriminate.
      cbn [endpoint_of bind].
      destruct (assoc_get "response_time" fields) as [[| |z|f| | |]|];
        try discriminate; cbn [addend bind]; intros Hok.
      * destruct (float_of_int z); [cbn [bind]; eauto | discriminate].
      * eauto.
      * eauto.
    + eauto.
  - change (truthy (VStr "")) with false. eauto.
Qed.

Lemma aggregate_loop_total (entries : list value) :
  Forall (fun entry => float_typed_record entry = true) entries ->
  forall d : stats, exists d', aggregate_loop entries d = Ok d'.
Proof.
  induction 1 as [|entry rest Hentry _ IH]; intros d; cbn [aggregate_loop].
  - eauto.
  - rewrite aggregate_entry_contribution.
    destruct (float_typed_contribution _ Hentry) as [c Hc].
    rewrite Hc. cbn [bind]. apply IH.
Qed.

Lemma odd_url_contribution (entry : value) :
  odd_url entry = true -> contribution entry = Raise AttributeError.
Proof.
  unfold odd_url, contribution.
  destruct entry as [| | | | | |fields]; try discriminate.
  cbn [get bind].
  destruct (assoc_get "url" fields) as [[|b|z|f|u|l|d]|]; try discriminate;
    intros T; rewrite T; reflexivity.
Qed.

Lemma aggregate_loop_raises (entries : list value) :
  Exists (fun entry => odd_url entry = true) entries ->
  forall d : stats, exists ex, aggregate_loop entries d = Raise ex.
Proof.
  induction 1 as [entry rest Hentry | entry rest _ IH]; intros d;
    cbn [aggregate_loop].
  - rewrite aggregate_entry_contribution, (odd_url_contribution _ Hentry).
    cbn [bind]. eauto.
  - destruct (aggregate_entry entry d) as [d1|ex]; cbn [bind]; eauto.
Qed.

(** C9, as the code has it.  [generate_average_report] returns, without
    raising, on every list of records in which a url that counts as true
    is a str and the response time of such a record, when it has one, is a
    float or an int within the float range; on a list with a record whose
    url counts as true and is not a str it raises. *)
Theorem typed_records_do_not_raise :
  (forall entries : list value,
      Forall (fun entry => float_typed_record entry = true) entries ->
      exists t : text, generate_average_report entries = Ok t)
  /\ (forall entries : list value,
        Exists (fun entry => odd_url entry = true) entries ->
        exists ex : exn, generate_average_report entries = Raise ex).
Proof.
  split; intros entries H; unfold generate_average_report, aggregate.
  - destruct entries as [|entry rest]; [eauto|].
    destruct (aggregate_loop_total _ H []) as [d' Hd']. rewrite Hd'.
    cbn [bind]. destruct d'; eauto.
  - destruct entries as [|entry rest]; [inversion H|].
    destruct (aggregate_loop_raises _ H []) as [ex Hex]. rewrite Hex.
    cbn [bind]. eauto.
Qed.

Lemma typed_records_do_not_raise_two_hits :
  exists t : text, generate_average_report Samples.two_hits = Ok t.
Proof.
  apply (proj1 typed_records_do_not_raise Samples.two_hits).
  repeat constructor.
Defined.

(** C9 as worded fails: the response time 10^400 is a number, the url a
    str, and the report raises OverflowError, the int being too large to
    convert to float. *)
Lemma huge_int_time_raises :
  typed_record Samples.huge_time = true
  /\ generate_average_report [Samples.huge_time] = Raise OverflowError.
Proof. vm_compute. split; reflexivity. Qed.

(** *** The stages of [main] *)

Section CliProofs.

Variable parse_arguments : list string -> parsed.
Variable json_loads : string -> decoded.
Variable fs : filesystem.
Variable fromisoformat : string -> option datetime.
Variable strftime_ymd : datetime -> string.

Lemma main_namespace (argv : list string) (a : args) :
  parse_arguments argv = Namespace a ->
  main parse_arguments json_loads fs fromisoformat strftime_ymd argv
  = date_stage json_loads fs fromisoformat strftime_ymd a.
Proof. intros H. unfold main. now rewrite H. Qed.

Lemma date_stage_accepted (a : args) :
  date_accepted a ->
  date_stage json_loads fs fromisoformat strftime_ymd a
  = ingest_stage json_loads fs fromisoformat strftime_ymd a.
Proof.
  unfold date_accepted, date_stage.
  destruct (date_given a) as [d|]; [|reflexivity].
  destruct (strptime_ymd d); [reflexivity | congruence].
Qed.


Lemma report_stage_calls (a : args) (out : list text) (es entries : list value) :
  es <> [] ->
  In entries (report_calls (report_stage a out es)) ->
  exists e rest, entries = e :: rest.
Proof.
  intros Hes. unfold report_stage.
  destruct (report a =? "average")%string.
  - destruct (generate_average_report es); cbn [report_calls In];
      intros [H|[]]; subst entries;
      (destruct es as [|e0 rest0]; [congruence | eauto]).
  - cbn [report_calls In]. contradiction.
Qed.

Lemma ingest_stage_calls (a : args) (entries : list value) :
  In entries
    (report_calls (ingest_stage json_loads fs fromisoformat strftime_ymd a)) ->
  exists e rest, entries = e :: rest.
Proof.
  unfold ingest_stage.
  destruct (read_log_files json_loads fs (file a)) as [[entries0|ex0] warnings];
    [|cbn [report_calls In]; contradiction].
  destruct entries0 as [|e0 rest0]; [cbn [report_calls In]; contradiction|].
  destruct (date_given a) as [d|].
  - destruct (filter_by_date fromisoformat strftime_ymd (e0 :: rest0) d)
      as [[|e1 rest1]|ex];
      try (cbn [report_calls In]; contradiction).
    apply report_stage_calls. discriminate.
  - apply report_stage_calls. discriminate.
Qed.

Lemma main_calls_nonempty (argv : list string) (entries : list value) :
  In entries
    (report_calls
       (main parse_arguments json_loads fs fromisoformat strftime_ymd argv)) ->
  exists e rest, entries = e :: rest.
Proof.
  unfold main, date_stage.
  destruct (parse_arguments argv) as [a|out code];
    [|cbn [report_calls In]; contradiction].
  destruct (date_given a) as [d|].
  - destruct (strptime_ymd d); [|cbn [report_calls In]; contradiction].
    apply ingest_stage_calls.
  - apply ingest_stage_calls.
Qed.

End CliProofs.

Lemma report_of_nonempty (e : value) (rest : list value) :
  generate_average_report (e :: rest) <> Ok (Plain "No log entries found").
Proof.
  unfold generate_average_report.
  destruct (aggregate (e :: rest)) as [d|ex]; cbn [bind]; [|discriminate].
  destruct d; discriminate.
Qed.





(** C10.  Whenever [main] calls [generate_average_report], the list it
    passes has at least one entry, so the call does not return by the
    branch for an empty list. *)
Theorem report_called_on_nonempty_list
    (parse_arguments : list string -> parsed)
    (json_loads : string -> decoded) (fs : filesystem)
    (fromisoformat : string -> option datetime)
    (strftime_ymd : datetime -> string) (argv : list string)
    (entries : list value) :
  In entries
    (report_calls
       (main parse_arguments json_loads fs fromisoformat strftime_ymd argv)) ->
  (exists e rest, entries = e :: rest)
  /\ generate_average_report entries <> Ok (Plain "No log entries found").
Proof.
  intros H. apply main_calls_nonempty in H.
  split; [exact H|].
  destruct H as [e [rest ->]]. apply report_of_nonempty.
Qed.

Lemma report_called_on_nonempty_list_sample :
  (exists e rest, [Samples.june_22_evening] = e :: rest)
  /\ generate_average_report [Samples.june_22_evening]
     <> Ok (Plain "No log entries found").
Proof.
  apply (report_called_on_nonempty_list Samples.sample_parse
           Samples.sample_loads Samples.sample_fs
           Samples.sample_fromisoformat Samples.sample_strftime
           Samples.plain_argv).
  left. vm_compute. reflexivity.
Defined.

(** ** Further properties *)

(** *** Ingestion: composition, accounting, provenance *)

Section IngestCover.

Variable json_loads : string -> decoded.
Variable fs : filesystem.

Lemma read_log_files_returns (file_paths : list string) (entries : list value) :
  fst (read_log_files json_loads fs file_paths) = Ok entries ->
  read_log_files json_loads fs file_paths
  = (Ok (flat_map (source_records json_loads fs) file_paths),
     flat_map (source_warnings json_loads fs) file_paths).
Proof.
  unfold read_log_files.
  destruct (read_files json_loads fs file_paths [] []) as [r o] eqn:H.
  cbn [fst]. intros ->.
  apply read_files_returns in H. cbn [app] in H. now destruct H as [-> ->].
Qed.

Lemma read_lines_ok_decodable (file_path : string) (lines : list string) :
  forall (n : Z) (entries entries' : list value) (out out' : list string),
    read_lines json_loads file_path n lines entries out = (Ok entries', out') ->
    forallb (decodable_line json_loads) lines = true.
Proof.
  induction lines as [|line rest IH]; intros n entries entries' out out' H;
    cbn [read_lines forallb] in *; [reflexivity|].
  unfold decodable_line at 1.
  destruct (strip line =? "")%string; [now apply IH in H|].
  destruct (json_loads (strip line)) as [v|msg|ex];
    [now apply IH in H | now apply IH in H | discriminate].
Qed.

Lemma read_files_ok_clean (file_paths : list string) :
  forall (entries entries' : list value) (out out' : list string),
    read_files json_loads fs file_paths entries out = (Ok entries', out') ->
    Forall (fun p => clean_source json_loads fs p = true) file_paths.
Proof.
  induction file_paths as [|p rest IH]; intros entries entries' out out' H;
    cbn [read_files] in H; constructor.
  - unfold clean_source, read_opened in *.
    destruct (fs p) as [| |e|lines stop]; try reflexivity; [discriminate|].
    destruct (read_lines json_loads p 1 lines entries out) as [[e1|ex] o1] eqn:Hl;
      [|discriminate].
    rewrite (read_lines_ok_decodable _ _ _ _ _ _ _ Hl).
    now destruct stop.
  - destruct (fs p) as [| |e|lines stop];
      [now apply IH in H | discriminate | now apply IH in H |].
    destruct (read_opened json_loads p lines stop entries out) as [[e1|ex] o1];
      [now apply IH in H | discriminate].
Qed.

Lemma lines_accounting (file_path : string) (lines : list string) :
  forallb (decodable_line json_loads) lines = true ->
  forall n : Z,
    (List.length (decoded_lines json_loads lines)
     + List.length (flat_map (line_warning json_loads file_path) (enumerate n lines))
     = List.length (filter nonblank lines))%nat.
Proof.
  induction lines as [|line rest IH]; intros Hc n; [reflexivity|].
  cbn [forallb] in Hc. apply andb_true_iff in Hc. destruct Hc as [Hline Hrest].
  cbn [decoded_lines enumerate flat_map filter].
  unfold line_warning at 1, nonblank at 1. unfold decodable_line in Hline.
  cbn [fst snd].
  fold (decoded_lines json_loads rest).
  rewrite !List.length_app. specialize (IH Hrest (n + 1)).
  destruct (strip line =? "")%string; cbn [negb].
  - exact IH.
  - destruct (json_loads (strip line)); cbn [List.length app];
      [lia | lia | discriminate].
Qed.

Lemma sources_accounting (file_paths : list string) :
  Forall (fun p => clean_source json_loads fs p = true) file_paths ->
  (List.length (flat_map (source_records json_loads fs) file_paths)
   + List.length (flat_map (source_warnings json_loads fs) file_paths)
   = List.length (filter nonblank (flat_map (source_lines fs) file_paths))
     + List.length (filter (faulty fs) file_paths))%nat.
Proof.
  induction 1 as [|p rest Hp _ IH]; [reflexivity|].
  cbn [flat_map filter].
  rewrite filter_app, !List.length_app.
  unfold source_records at 1, source_warnings at 1, source_lines at 1,
    faulty at 1.
  unfold clean_source in Hp.
  destruct (fs p) as [| |e|lines stop]; try discriminate.
  - cbn [List.length filter]. lia.
  - cbn [List.length filter]. lia.
  - apply andb_true_iff in Hp. destruct Hp as [Hlines Hstop].
    pose proof (lines_accounting p lines Hlines 1) as Hl.
    unfold line_warnings. rewrite List.length_app.
    destruct stop; cbn [List.length]; [lia | lia | discriminate].
Qed.

End IngestCover.

(** X1.  Reading a list of sources is reading its two halves one after the
    other.  When reading [ps1] raises, reading [ps1 ++ ps2] raises the same
    with the same lines printed, and no source of [ps2] is looked at.  When
    it returns, the outcome is that of reading [ps2] with the entries of
    [ps1] in front, and the printed lines of [ps1] come before those of
    [ps2]. *)
Theorem read_log_files_app :
  forall (json_loads : string -> decoded) (fs : filesystem)
         (ps1 ps2 : list string),
    read_log_files json_loads fs (ps1 ++ ps2)
    = match read_log_files json_loads fs ps1 with
      | (Raise ex, printed) => (Raise ex, printed)
      | (Ok entries, printed) =>
          (extend entries (fst (read_log_files json_loads fs ps2)),
           (printed ++ snd (read_log_files json_loads fs ps2))%list)
      end.
Proof.
  intros json_loads fs ps1 ps2. unfold read_log_files.
  rewrite read_files_app.
  destruct (read_files json_loads fs ps1 [] []) as [[e1|ex] o1]; [|reflexivity].
  apply read_files_from.
Qed.

(** X2.  When [read_log_files] returns, nothing is lost and nothing is
    counted twice: every line of an opened source that is not blank gives
    one entry or one printed warning, every source that is missing, does
    not open or stops with a read error gives one printed line, and nothing
    else is returned or printed. *)
Theorem read_log_files_accounting :
  forall (json_loads : string -> decoded) (fs : filesystem)
         (file_paths : list string) (entries : list value),
    fst (read_log_files json_loads fs file_paths) = Ok entries ->
    (List.length entries
     + List.length (snd (read_log_files json_loads fs file_paths))
     = List.length (filter nonblank (flat_map (source_lines fs) file_paths))
       + List.length (filter (faulty fs) file_paths))%nat.
Proof.
  intros json_loads fs file_paths entries H.
  assert (Hclean : Forall (fun p => clean_source json_loads fs p = true) file_paths).
  { unfold read_log_files in H.
    destruct (read_files json_loads fs file_paths [] []) as [r o] eqn:Hr.
    cbn [fst] in H. subst r. exact (read_files_ok_clean _ _ _ _ _ _ _ Hr). }
  pose proof (read_log_files_returns _ _ _ _ H) as Heq.
  rewrite Heq in H |- *. cbn [fst snd] in *.
  inversion H; subst entries.
  now apply sources_accounting.
Qed.

Lemma read_log_files_accounting_four_sources :
  (List.length [Samples.june_22_evening; Samples.june_22_evening]
   + List.length
       (snd (read_log_files Samples.sample_loads Samples.damaged_fs
               ["access.log"; "nowhere.log"; "flaky.log"; "locked.log"]))
   = List.length
       (filter nonblank
          (flat_map (source_lines Samples.damaged_fs)
             ["access.log"; "nowhere.log"; "flaky.log"; "locked.log"]))
     + List.length
         (filter (faulty Samples.damaged_fs)
            ["access.log"; "nowhere.log"; "flaky.log"; "locked.log"]))%nat.
Proof.
  apply (read_log_files_accounting Samples.sample_loads Samples.damaged_fs).
  vm_compute. reflexivity.
Defined.

(** X16.  When [read_log_files] returns, an entry is among those returned
    exactly when it is what some line of some listed source that opens
    decodes to, the line being stripped and not blank: no entry comes from
    anywhere else. *)
Theorem entries_come_from_lines :
  forall (json_loads : string -> decoded) (fs : filesystem)
         (file_paths : list string) (entries : list value),
    fst (read_log_files json_loads fs file_paths) = Ok entries ->
    forall entry : value,
      In entry entries
      <-> exists (p : string) (lines : list string) (stop : read_end)
                 (line : string),
            In p file_paths
            /\ fs p = Text lines stop
            /\ In line lines
            /\ strip line <> EmptyString
            /\ json_loads (strip line) = Decoded entry.
Proof.
  intros json_loads fs file_paths entries H entry.
  pose proof (read_log_files_returns _ _ _ _ H) as Heq.
  rewrite Heq in H. cbn [fst] in H. inversion H; subst entries. clear H Heq.
  rewrite in_flat_map. split.
  - intros [p [Hp Hin]]. unfold source_records in Hin.
    destruct (fs p) as [| |e|lines stop] eqn:Hfs; try contradiction.
    unfold decoded_lines in Hin. rewrite in_flat_map in Hin.
    destruct Hin as [line [Hline Hdec]].
    destruct (String.eqb_spec (strip line) "") as [E|E]; [contradiction|].
    destruct (json_loads (strip line)) as [v|msg|ex] eqn:Hj; try contradiction.
    destruct Hdec as [->|[]].
    exists p, lines, stop, line. auto.
  - intros [p [lines [stop [line [Hp [Hfs [Hline [Hne Hj]]]]]]]].
    exists p. split; [exact Hp|].
    unfold source_records. rewrite Hfs.
    unfold decoded_lines. rewrite in_flat_map.
    exists line. split; [exact Hline|].
    apply String.eqb_neq in Hne. rewrite Hne, Hj. now left.
Qed.

Lemma entries_come_from_lines_access_log :
  In Samples.june_22_evening [Samples.june_22_evening]
  <-> exists (p : string) (lines : list string) (stop : read_end)
             (line : string),
        In p ["access.log"; "locked.log"]
        /\ Samples.sample_fs p = Text lines stop
        /\ In line lines
        /\ strip line <> EmptyString
        /\ Samples.sample_loads (strip line) = Decoded Samples.june_22_evening.
Proof.
  apply (entries_come_from_lines Samples.sample_loads Samples.sample_fs
           ["access.log"; "locked.log"] [Samples.june_22_evening]).
  vm_compute. reflexivity.
Defined.

(** X19.  On sources that hold nothing the function does not catch (every
    path may be looked at, every file is UTF-8, [json.loads] raises nothing
    but JSONDecodeError) [read_log_files] returns.  It returns the decoded
    lines of the sources that open, source after source in the order
    given and line after line within a source.  It prints one line for
    each source that is missing or does not open, and for each line that
    fails to decode one warning with the path, the line's number counted
    from 1 and the decoder's message; after such a line and after such a
    source the reading goes on. *)
Theorem read_log_files_on_clean_sources :
  forall (json_loads : string -> decoded) (fs : filesystem)
         (file_paths : list string),
    Forall (fun p => clean_source json_loads fs p = true) file_paths ->
    read_log_files json_loads fs file_paths
    = (Ok (flat_map (source_records json_loads fs) file_paths),
       flat_map (source_warnings json_loads fs) file_paths).
Proof.
  intros json_loads fs file_paths Hclean.
  destruct (read_files_clean json_loads fs file_paths Hclean [] [])
    as [entries [out H]].
  apply (read_log_files_returns _ _ _ entries).
  unfold read_log_files. now rewrite H.
Qed.

Lemma read_log_files_on_clean_sources_four_sources :
  read_log_files Samples.sample_loads Samples.damaged_fs
    ["access.log"; "nowhere.log"; "flaky.log"; "locked.log"]
  = (Ok (flat_map (source_records Samples.sample_loads Samples.damaged_fs)
           ["access.log"; "nowhere.log"; "flaky.log"; "locked.log"]),
     flat_map (source_warnings Samples.sample_loads Samples.damaged_fs)
       ["access.log"; "nowhere.log"; "flaky.log"; "locked.log"]).
Proof.
  apply (read_log_files_on_clean_sources Samples.sample_loads Samples.damaged_fs).
  repeat constructor.
Defined.

Example four_sources_read :
  read_log_files Samples.sample_loads Samples.damaged_fs
    ["access.log"; "nowhere.log"; "flaky.log"; "locked.log"]
  = (Ok [Samples.june_22_evening; Samples.june_22_evening],
     ["Warning: Invalid JSON in access.log at line 2: "
        ++ "Expecting value: line 1 column 1 (char 0)";
      "Warning: File nowhere.log does not exist, skipping...";
      "Error reading file flaky.log: [Errno 5] Input/output error";
      "Error reading file locked.log: [Errno 13] Permission denied: 'locked.log'"]).
Proof. vm_compute. reflexivity. Qed.

(** X20.  [read_log_files] raises exactly when, reading the sources in
    their order, it comes to one that holds something it does not catch: a
    path that may not be looked at, bytes that are not UTF-8, a line on
    which [json.loads] raises something other than JSONDecodeError. *)
Theorem read_log_files_raises_iff :
  forall (json_loads : string -> decoded) (fs : filesystem)
         (file_paths : list string),
    (exists ex : exn, fst (read_log_files json_loads fs file_paths) = Raise ex)
    <-> Exists (fun p => clean_source json_loads fs p = false) file_paths.
Proof.
  intros json_loads fs file_paths. split.
  - intros [ex Hex].
    destruct (Forall_Exists_dec (fun p => clean_source json_loads fs p = true)
                (fun p => bool_dec (clean_source json_loads fs p) true)
                file_paths) as [Hall|Hsome].
    + rewrite (read_log_files_on_clean_sources _ _ _ Hall) in Hex.
      discriminate.
    + apply Exists_exists in Hsome. destruct Hsome as [p [Hin Hp]].
      apply Exists_exists. exists p. split; [exact Hin|].
      now destruct (clean_source json_loads fs p).
  - intros Hsome.
    destruct (fst (read_log_files json_loads fs file_paths)) as [entries|ex] eqn:H;
      [|eauto].
    exfalso. unfold read_log_files in H.
    destruct (read_files json_loads fs file_paths [] []) as [r o] eqn:Hr.
    cbn [fst] in H. subst r.
    apply read_files_ok_clean in Hr.
    apply Exists_exists in Hsome. destruct Hsome as [p [Hin Hp]].
    rewrite Forall_forall in Hr. specialize (Hr p Hin). congruence.
Qed.

(** *** The date filter: failure, idempotence, one date per record *)

Section DateFilterCover.

Variable fromisoformat : string -> option datetime.
Variable strftime_ymd : datetime -> string.

Lemma filter_loop_not_dict (date_filter : string) (entries : list value) :
  Exists (fun entry => is_dict entry = false) entries ->
  forall filtered : list value,
    filter_loop fromisoformat strftime_ymd entries date_filter filtered
    = Raise AttributeError.
Proof.
  induction 1 as [entry rest Hentry | entry rest _ IH]; intros filtered.
  - destruct entry; try discriminate; reflexivity.
  - destruct entry as [| | | | | |fields]; try reflexivity.
    rewrite filter_loop_step. apply IH.
Qed.

Lemma dicts_or_not (entries : list value) :
  Forall (fun entry => is_dict entry = true) entries
  \/ Exists (fun entry => is_dict entry = false) entries.
Proof.
  induction entries as [|entry rest [IH|IH]]; auto.
  destruct (is_dict entry) eqn:E; auto.
Qed.

Lemma filter_by_date_ok_dicts (entries result : list value) (date_filter : string) :
  filter_by_date fromisoformat strftime_ymd entries date_filter = Ok result ->
  Forall (fun entry => is_dict entry = true) entries
  /\ result
     = filter (on_written_date fromisoformat strftime_ymd date_filter) entries.
Proof.
  intros H. destruct (dicts_or_not entries) as [Hd|Hn].
  - split; [exact Hd|].
    unfold filter_by_date in H. rewrite filter_loop_spec in H by exact Hd.
    cbn [app] in H. congruence.
  - unfold filter_by_date in H.
    rewrite (filter_loop_not_dict _ _ Hn) in H. discriminate.
Qed.

End DateFilterCover.

(** X3.  [filter_by_date] raises exactly when some entry is not a dict (a
    decoded line such as [42] or [[1, 2]]), and then it raises
    AttributeError: [entry.get] stands outside the [try].  What goes wrong
    inside the [try], a timestamp that is not a str or does not parse, never
    raises. *)
Theorem filter_by_date_raises_iff :
  forall (fromisoformat : string -> option datetime)
         (strftime_ymd : datetime -> string)
         (entries : list value) (date_filter : string),
    (filter_by_date fromisoformat strftime_ymd entries date_filter
     = Raise AttributeError
     <-> Exists (fun entry => is_dict entry = false) entries)
    /\ (forall ex : exn,
          filter_by_date fromisoformat strftime_ymd entries date_filter = Raise ex ->
          ex = AttributeError).
Proof.
  intros fromisoformat strftime_ymd entries date_filter.
  destruct (dicts_or_not entries) as [Hd|Hn].
  - assert (Hok : filter_by_date fromisoformat strftime_ymd entries date_filter
                  = Ok (filter (on_written_date fromisoformat strftime_ymd
                                  date_filter) entries)).
    { unfold filter_by_date. now rewrite filter_loop_spec. }
    rewrite Hok. split; [split|]; try discriminate.
    intros Hex. exfalso.
    apply Exists_exists in Hex. destruct Hex as [e [Hin He]].
    rewrite Forall_forall in Hd. specialize (Hd e Hin). congruence.
  - unfold filter_by_date. rewrite (filter_loop_not_dict _ _ _ _ Hn).
    split; [tauto | congruence].
Qed.

Lemma filter_same_twice {A : Type} (f : A -> bool) (l : list A) :
  filter f (filter f l) = filter f l.
Proof.
  rewrite filter_twice. apply filter_ext. intros x. now destruct (f x).
Qed.

Lemma Forall_filter_keeps {A : Type} (P : A -> Prop) (f : A -> bool) (l : list A) :
  Forall P l -> Forall P (filter f l).
Proof.
  rewrite !Forall_forall. intros H x Hx. apply filter_In in Hx. apply H, Hx.
Qed.

Lemma filter_shorter {A : Type} (f : A -> bool) (l : list A) :
  (List.length (filter f l) <= List.length l)%nat.
Proof.
  induction l as [|a l IH]; cbn [filter List.length]; [lia|].
  destruct (f a); cbn [List.length]; lia.
Qed.

(** X4.  Filtering twice by the same date is filtering once; what the
    filter returns is made of entries of its input, never more of them
    than it was given. *)
Theorem filter_by_date_idempotent
    (fromisoformat : string -> option datetime)
    (strftime_ymd : datetime -> string)
    (entries result : list value) (date_filter : string) :
  filter_by_date fromisoformat strftime_ymd entries date_filter = Ok result ->
  filter_by_date fromisoformat strftime_ymd result date_filter = Ok result
  /\ (List.length result <= List.length entries)%nat
  /\ (forall entry : value, In entry result -> In entry entries).
Proof.
  intros H. apply filter_by_date_ok_dicts in H. destruct H as [Hd ->].
  split; [|split].
  - unfold filter_by_date.
    rewrite filter_loop_spec by now apply Forall_filter_keeps.
    cbn [app]. now rewrite filter_same_twice.
  - apply filter_shorter.
  - intros entry Hin. apply filter_In in Hin. tauto.
Qed.

Lemma filter_by_date_idempotent_three_days :
  filter_by_date Samples.sample_fromisoformat Samples.sample_strftime
    [Samples.june_22_evening; Samples.late_evening] "2025-06-22"
  = Ok [Samples.june_22_evening; Samples.late_evening]
  /\ (List.length [Samples.june_22_evening; Samples.late_evening]
      <= List.length Samples.three_days)%nat
  /\ (forall entry : value,
        In entry [Samples.june_22_evening; Samples.late_evening] ->
        In entry Samples.three_days).
Proof.
  apply (filter_by_date_idempotent Samples.sample_fromisoformat
           Samples.sample_strftime Samples.three_days).
  vm_compute. reflexivity.
Defined.

(** X5.  A record is kept for one date at most: an entry that two runs of
    the filter over the same list both keep was asked for with the same
    date both times. *)
Theorem filter_by_date_one_date
    (fromisoformat : string -> option datetime)
    (strftime_ymd : datetime -> string)
    (entries r1 r2 : list value)
    (d1 d2 : string) (entry : value) :
  filter_by_date fromisoformat strftime_ymd entries d1 = Ok r1 ->
  filter_by_date fromisoformat strftime_ymd entries d2 = Ok r2 ->
  In entry r1 -> In entry r2 ->
  d1 = d2.
Proof.
  intros H1 H2 Hin1 Hin2.
  apply filter_by_date_ok_dicts in H1. destruct H1 as [_ ->].
  apply filter_by_date_ok_dicts in H2. destruct H2 as [_ ->].
  apply filter_In in Hin1. destruct Hin1 as [_ Hk1].
  apply filter_In in Hin2. destruct Hin2 as [_ Hk2].
  apply on_written_date_iff in Hk1.
  destruct Hk1 as [f1 [s1 [dt1 [He1 [Ht1 [_ [Hp1 Hs1]]]]]]].
  apply on_written_date_iff in Hk2.
  destruct Hk2 as [f2 [s2 [dt2 [He2 [Ht2 [_ [Hp2 Hs2]]]]]]].
  subst entry. inversion He2; subst f2.
  rewrite Ht1 in Ht2. inversion Ht2; subst s2.
  rewrite Hp1 in Hp2. inversion Hp2; subst dt2.
  congruence.
Qed.

Lemma filter_by_date_one_date_three_days : "2025-06-22" = "2025-06-22".
Proof.
  apply (filter_by_date_one_date Samples.sample_fromisoformat
           Samples.sample_strftime Samples.three_days
           [Samples.june_22_evening; Samples.late_evening]
           [Samples.june_22_evening; Samples.late_evening]
           "2025-06-22" "2025-06-22" Samples.late_evening).
  - vm_compute. reflexivity.
  - vm_compute. reflexivity.
  - right. left. reflexivity.
  - right. left. reflexivity.
Defined.

Lemma append_assoc3 (a b c : string) : (a ++ b) ++ c = a ++ (b ++ c).
Proof. induction a as [|x a IH]; cbn [String.append]; congruence. Qed.

Lemma replace_app (old : ascii) (new a b : string) :
  replace old new (a ++ b) = replace old new a ++ replace old new b.
Proof.
  induction a as [|c a IH]; cbn [replace String.append]; [reflexivity|].
  rewrite IH. destruct (Ascii.eqb c old); cbn [String.append]; [|reflexivity].
  now rewrite append_assoc3.
Qed.

(** X6.  A timestamp that ends in [Z] is dated as the same timestamp
    ending in [+00:00] is: both parse, or neither does, and to the same
    date. *)
Theorem zulu_suffix_is_utc_offset :
  forall (fromisoformat : string -> option datetime)
         (strftime_ymd : datetime -> string) (s : string),
    entry_date fromisoformat strftime_ymd (VStr (s ++ "Z"))
    = entry_date fromisoformat strftime_ymd (VStr (s ++ "+00:00")).
Proof.
  intros fromisoformat strftime_ymd s. unfold entry_date.
  now rewrite !replace_app.
Qed.

(** X18.  Filtering a list in two pieces gives the same as filtering it
    whole: when the filter returns on both pieces, it returns on their
    concatenation, with the two results one after the other. *)
Theorem filter_by_date_app
    (fromisoformat : string -> option datetime)
    (strftime_ymd : datetime -> string)
    (es1 es2 r1 r2 : list value) (date_filter : string) :
  filter_by_date fromisoformat strftime_ymd es1 date_filter = Ok r1 ->
  filter_by_date fromisoformat strftime_ymd es2 date_filter = Ok r2 ->
  filter_by_date fromisoformat strftime_ymd (es1 ++ es2) date_filter
  = Ok (r1 ++ r2)%list.
Proof.
  intros H1 H2.
  apply filter_by_date_ok_dicts in H1. destruct H1 as [Hd1 ->].
  apply filter_by_date_ok_dicts in H2. destruct H2 as [Hd2 ->].
  unfold filter_by_date.
  rewrite filter_loop_spec by (apply Forall_app; auto).
  cbn [app]. now rewrite filter_app.
Qed.

Lemma filter_by_date_app_three_days :
  filter_by_date Samples.sample_fromisoformat Samples.sample_strftime
    ([Samples.june_22_evening] ++ [Samples.june_23_evening; Samples.late_evening])
    "2025-06-22"
  = Ok ([Samples.june_22_evening] ++ [Samples.late_evening])%list.
Proof.
  apply (filter_by_date_app Samples.sample_fromisoformat Samples.sample_strftime
           [Samples.june_22_evening]
           [Samples.june_23_evening; Samples.late_evening]).
  - vm_compute. reflexivity.
  - vm_compute. reflexivity.
Defined.

(** *** The aggregate: totals, keys, outcomes *)

Lemma count_sum_setdefault (e : string) (d : stats) :
  count_sum (setdefault e d) = count_sum d.
Proof.
  induction d as [|[k v] d IH]; cbn [setdefault count_sum].
  - reflexivity.
  - destruct (k =? e)%string; cbn [count_sum]; [reflexivity | now rewrite IH].
Qed.

Lemma count_sum_store (e : string) (v : stat) (d : stats) :
  assoc_get e d <> None ->
  count_sum (store e v d) = count_sum d - count (item e d) + count v.
Proof.
  unfold item.
  induction d as [|[k v0] d IH]; cbn [store count_sum assoc_get]; intros H.
  - congruence.
  - destruct (k =? e)%string; cbn [count_sum].
    + lia.
    + rewrite IH by exact H. lia.
Qed.

Lemma count_sum_bump (e : string) (x : float) (d : stats) :
  count_sum (bump e x d) = count_sum d + 1.
Proof.
  unfold bump.
  assert (Hp : assoc_get e (setdefault e d) <> None)
    by (rewrite assoc_get_setdefault_same; discriminate).
  rewrite count_sum_store by exact Hp.
  rewrite count_sum_setdefault. cbn [count].
  assert (Hi : item e (setdefault e d) = item e d).
  { unfold item at 1. now rewrite assoc_get_setdefault_same. }
  rewrite Hi. lia.
Qed.

Lemma aggregate_loop_count_sum (entries : list value) :
  forall d d' : stats,
    aggregate_loop entries d = Ok d' ->
    count_sum d' = count_sum d + Z.of_nat (List.length (endpoint_keys entries)).
Proof.
  induction entries as [|entry rest IH]; intros d d' H; cbn [aggregate_loop] in H.
  - inversion H; subst. cbn. lia.
  - apply bind_ok in H. destruct H as [d1 [H1 H2]].
    rewrite aggregate_entry_contribution in H1.
    apply bind_ok in H1. destruct H1 as [c [Hc Hd1]].
    inversion Hd1; subst d1; clear Hd1.
    rewrite (IH _ _ H2). cbn [endpoint_keys flat_map].
    fold (endpoint_keys rest). rewrite List.length_app.
    destruct c as [[e x]|].
    + apply contribution_some in Hc. destruct Hc as [Hk _].
      rewrite Hk, count_sum_bump. cbn [List.length]. lia.
    + apply contribution_none in Hc. rewrite Hc. cbn [List.length]. lia.
Qed.

Lemma total_sum_perm (l1 l2 : list row) :
  Permutation l1 l2 -> total_sum l1 = total_sum l2.
Proof.
  induction 1; cbn [total_sum]; lia.
Qed.

Lemma total_sum_rows (d : stats) : total_sum (map row_of d) = count_sum d.
Proof.
  induction d as [|[k v] d IH]; cbn [map total_sum count_sum row_of total snd];
    [reflexivity | now rewrite IH].
Qed.

(** X7.  The totals add up: the counts of the mapping, and the [total]
    column of the table built from it, sum to the number of records that
    have a url to group by. *)
Theorem totals_add_up (entries : list value) (d : stats) :
  aggregate entries = Ok d ->
  count_sum d = Z.of_nat (List.length (endpoint_keys entries))
  /\ total_sum (map snd (table_data d))
     = Z.of_nat (List.length (endpoint_keys entries)).
Proof.
  intros H.
  assert (Hc : count_sum d = Z.of_nat (List.length (endpoint_keys entries))).
  { apply aggregate_loop_count_sum in H. cbn [count_sum] in H. lia. }
  split; [exact Hc|].
  rewrite table_data_rows, (total_sum_perm _ _ (sort_rows_perm _)).
  now rewrite total_sum_rows.
Qed.

Lemma totals_add_up_1_3_1 :
  count_sum Samples.counts_1_3_1_stats
  = Z.of_nat (List.length (endpoint_keys Samples.counts_1_3_1))
  /\ total_sum (map snd (table_data Samples.counts_1_3_1_stats))
     = Z.of_nat (List.length (endpoint_keys Samples.counts_1_3_1)).
Proof.
  apply (totals_add_up Samples.counts_1_3_1).
  vm_compute. reflexivity.
Defined.

Lemma endpoint_key_no_query (entry : value) (e : string) :
  endpoint_key entry = Some e -> has_char "?" e = false.
Proof.
  unfold endpoint_key.
  destruct entry as [| | | | | |fields]; try discriminate.
  destruct (assoc_get "url" fields) as [[| | | |u| |]|]; try discriminate.
  destruct (u =? "")%string; [discriminate|].
  intros H. inversion H; subst.
  destruct (split_hd u) as [rest [_ [Hc _]]]. exact Hc.
Qed.

Lemma endpoint_keys_no_query (entries : list value) (e : string) :
  In e (endpoint_keys entries) -> has_char "?" e = false.
Proof.
  unfold endpoint_keys. rewrite in_flat_map.
  intros [entry [_ Hin]].
  destruct (endpoint_key entry) as [e'|] eqn:Hk; [|contradiction].
  destruct Hin as [->|[]]. now apply (endpoint_key_no_query entry).
Qed.

Lemma enumerate_fst {A : Type} (l : list A) :
  forall i : Z,
    map fst (enumerate i l)
    = map (fun k => i + Z.of_nat k) (seq 0 (List.length l)).
Proof.
  induction l as [|x l IH]; intros i; cbn [enumerate map List.length seq fst].
  - reflexivity.
  - f_equal; [lia|].
    rewrite IH, <- seq_shift, map_map.
    apply map_ext. intros k. lia.
Qed.

(** X8.  In the table every endpoint stands in one row only, no endpoint
    holds a [?], there are as many rows as distinct endpoints among the
    records, and the ranks are 0, 1, ... in this order. *)
Theorem table_rows_are_distinct_endpoints (entries : list value) (d : stats) :
  aggregate entries = Ok d ->
  NoDup (map endpoint (map snd (table_data d)))
  /\ (forall (rk : Z) (r : row),
        In (rk, r) (table_data d) -> has_char "?" (endpoint r) = false)
  /\ List.length (table_data d)
     = List.length (first_seen (endpoint_keys entries))
  /\ map fst (table_data d)
     = map Z.of_nat (seq 0 (List.length (first_seen (endpoint_keys entries)))).
Proof.
  intros H.
  pose proof (aggregate_keys _ _ H) as Hkeys.
  assert (Hends : map endpoint (map row_of d) = map fst d).
  { rewrite map_map. apply map_ext. intros [k v]. reflexivity. }
  assert (Hperm : Permutation (map snd (table_data d)) (map row_of d)).
  { rewrite table_data_rows. apply sort_rows_perm. }
  assert (Hlen : List.length (table_data d)
                 = List.length (first_seen (endpoint_keys entries))).
  { rewrite <- Hkeys, <- (length_map snd (table_data d)).
    rewrite (Permutation_length Hperm). now rewrite !length_map. }
  split; [|split; [|split]].
  - apply (Permutation_NoDup (l := map endpoint (map row_of d))).
    + symmetry. now apply Permutation_map.
    + rewrite Hends. apply (aggregate_NoDup _ _ H).
  - intros rk r Hin.
    apply table_data_item in Hin. destruct Hin as [s [Hin _]].
    apply (endpoint_keys_no_query entries).
    apply first_seen_In. rewrite <- Hkeys.
    now apply (in_map fst) in Hin.
  - exact Hlen.
  - unfold table_data. rewrite enumerate_fst.
    fold (table_data d).
    assert (Hl : List.length (sort_rows (map row_of d))
                 = List.length (first_seen (endpoint_keys entries))).
    { rewrite <- Hlen. unfold table_data.
      rewrite <- (length_map snd (enumerate 0 _)). now rewrite enumerate_snd. }
    rewrite Hl. apply map_ext. intros k. lia.
Qed.

Lemma table_rows_are_distinct_endpoints_1_3_1 :
  NoDup (map endpoint (map snd (table_data Samples.counts_1_3_1_stats)))
  /\ (forall (rk : Z) (r : row),
        In (rk, r) (table_data Samples.counts_1_3_1_stats) ->
        has_char "?" (endpoint r) = false)
  /\ List.length (table_data Samples.counts_1_3_1_stats)
     = List.length (first_seen (endpoint_keys Samples.counts_1_3_1))
  /\ map fst (table_data Samples.counts_1_3_1_stats)
     = map Z.of_nat
         (seq 0 (List.length (first_seen (endpoint_keys Samples.counts_1_3_1)))).
Proof.
  apply (table_rows_are_distinct_endpoints Samples.counts_1_3_1).
  vm_compute. reflexivity.
Defined.

(** X9.  When [generate_average_report] returns, it returns one of three
    things, and the records tell which: [No log entries found] for no
    entry at all; [No valid endpoints found] for entries none of which has
    a url to group by; else the table, with at least one row and always
    the same headers and alignments. *)
Theorem report_is_one_of_three (entries : list value) (t : text) :
  generate_average_report entries = Ok t ->
  (entries = [] /\ t = Plain "No log entries found")
  \/ (entries <> [] /\ endpoint_keys entries = []
      /\ t = Plain "No valid endpoints found")
  \/ (endpoint_keys entries <> []
      /\ exists d : stats,
           aggregate entries = Ok d
           /\ t = report_table (table_data d)
           /\ table_data d <> []).
Proof.
  unfold generate_average_report.
  destruct entries as [|entry rest].
  - intros H. inversion H. auto.
  - intros H. apply bind_ok in H. destruct H as [d [Hagg Ht]].
    pose proof (aggregate_keys _ _ Hagg) as Hkeys.
    destruct d as [|it d].
    + inversion Ht. right; left. split; [discriminate|]. split; [|reflexivity].
      cbn [map] in Hkeys.
      destruct (endpoint_keys (entry :: rest)) as [|k ks]; [reflexivity|].
      discriminate.
    + inversion Ht. right; right. split.
      * intros Hnil. rewrite Hnil in Hkeys. discriminate.
      * exists (it :: d). split; [exact Hagg|]. split; [reflexivity|].
        intros Hnil. apply (f_equal (map snd)) in Hnil.
        rewrite table_data_rows in Hnil.
        apply (f_equal (@List.length row)) in Hnil.
        rewrite (Permutation_length (sort_rows_perm _)) in Hnil.
        discriminate.
Qed.

Lemma report_is_one_of_three_two_hits :
  (Samples.two_hits = []
   /\ report_table [(0, mk_row "/api/test" 2 "0.150")]
      = Plain "No log entries found")
  \/ (Samples.two_hits <> [] /\ endpoint_keys Samples.two_hits = []
      /\ report_table [(0, mk_row "/api/test" 2 "0.150")]
         = Plain "No valid endpoints found")
  \/ (endpoint_keys Samples.two_hits <> []
      /\ exists d : stats,
           aggregate Samples.two_hits = Ok d
           /\ report_table [(0, mk_row "/api/test" 2 "0.150")]
              = report_table (table_data d)
           /\ table_data d <> []).
Proof.
  apply (report_is_one_of_three Samples.two_hits).
  vm_compute. reflexivity.
Defined.

(** *** The aggregate: order of the records, first failure *)

Lemma aggregate_loop_passes (entries : list value) :
  forall d : stats,
    (exists d', aggregate_loop entries d = Ok d') <-> Forall passes entries.
Proof.
  induction entries as [|entry rest IH]; intros d; cbn [aggregate_loop].
  - split; [constructor | eauto].
  - rewrite aggregate_entry_contribution. split.
    + intros [d' H]. apply bind_ok in H. destruct H as [d1 [H1 H2]].
      apply bind_ok in H1. destruct H1 as [c [Hc _]].
      constructor; [exists c; exact Hc|].
      apply (IH d1). eauto.
    + intros H. inversion H as [|? ? [c Hc] Hrest]; subst.
      rewrite Hc. cbn [bind]. now apply IH.
Qed.

Lemma group_length_perm (e : string) (l1 l2 : list value) :
  Permutation l1 l2 ->
  List.length (group e l1) = List.length (group e l2).
Proof.
  unfold group.
  induction 1 as [|x l l' _ IH|x y l|l l' l'' _ IH1 _ IH2]; cbn [filter].
  - reflexivity.
  - destruct (grouped_under e x); cbn [List.length]; lia.
  - destruct (grouped_under e x), (grouped_under e y); reflexivity.
  - lia.
Qed.

(** X10.  The order of the records decides neither whether the aggregation
    goes through nor the counts: on a reordered list it succeeds as well,
    with the same endpoints and the same count for each. *)
Theorem counts_ignore_order (entries entries' : list value) (d : stats) :
  Permutation entries entries' ->
  aggregate entries = Ok d ->
  exists d' : stats,
    aggregate entries' = Ok d'
    /\ (forall e : string, count (item e d') = count (item e d))
    /\ Permutation (map fst d') (map fst d).
Proof.
  intros Hperm Hagg.
  assert (Hpass : Forall passes entries')
    by (apply (Permutation_Forall Hperm), (aggregate_loop_passes entries []); eauto).
  apply (aggregate_loop_passes entries' []) in Hpass.
  destruct Hpass as [d' Hagg']. exists d'.
  split; [exact Hagg'|]. split.
  - intros e.
    rewrite (aggregate_loop_items _ _ _ e Hagg').
    rewrite (aggregate_loop_items _ _ _ e Hagg). cbn [count].
    now rewrite (group_length_perm e _ _ Hperm).
  - rewrite (aggregate_keys _ _ Hagg), (aggregate_keys _ _ Hagg').
    apply NoDup_Permutation; try apply first_seen_NoDup.
    intros e. rewrite !first_seen_In, !endpoint_keys_group.
    now rewrite (group_length_perm e _ _ Hperm).
Qed.

Lemma counts_ignore_order_two_hits :
  exists d' : stats,
    aggregate (rev Samples.two_hits) = Ok d'
    /\ (forall e : string,
          count (item e d') = count (item e Samples.two_hits_stats))
    /\ Permutation (map fst d') (map fst Samples.two_hits_stats).
Proof.
  apply (counts_ignore_order Samples.two_hits (rev Samples.two_hits)).
  - apply Permutation_rev.
  - vm_compute. reflexivity.
Defined.

Lemma aggregate_loop_first_failure (good : list value) (bad : value)
    (rest : list value) (ex : exn) :
  Forall passes good ->
  contribution bad = Raise ex ->
  forall d : stats, aggregate_loop (good ++ bad :: rest) d = Raise ex.
Proof.
  intros Hgood Hbad.
  induction Hgood as [|entry good' [c Hc] _ IH]; intros d;
    cbn [app aggregate_loop]; rewrite aggregate_entry_contribution.
  - now rewrite Hbad.
  - rewrite Hc. cbn [bind]. apply IH.
Qed.

(** X11.  The report fails on the first record that makes the loop raise,
    with that record's exception; the records after it are never looked
    at. *)
Theorem report_fails_at_first_offender (good : list value) (bad : value)
    (rest : list value) (ex : exn) :
  Forall passes good ->
  contribution bad = Raise ex ->
  generate_average_report (good ++ bad :: rest) = Raise ex.
Proof.
  intros Hgood Hbad.
  pose proof (aggregate_loop_first_failure good bad rest ex Hgood Hbad []) as H.
  unfold generate_average_report, aggregate. rewrite H.
  destruct good; reflexivity.
Qed.

Lemma report_fails_at_first_offender_sample :
  generate_average_report
    (Samples.two_hits ++ Samples.slow_text :: [Samples.huge_time])
  = Raise TypeError.
Proof.
  apply (report_fails_at_first_offender Samples.two_hits Samples.slow_text).
  - repeat constructor; eexists; vm_compute; reflexivity.
  - reflexivity.
Defined.

(** *** [main]: exit codes and output *)

Lemma report_stage_shape (a : args) (out : list text) (es : list value) :
  (exit_code (ending (report_stage a out es)) = 0
   \/ exit_code (ending (report_stage a out es)) = 1)
  /\ exists tail : list text,
       stdout (report_stage a out es) = (out ++ tail)%list
       /\ (List.length tail <= 1)%nat.
Proof.
  unfold report_stage.
  destruct (report a =? "average")%string.
  - destruct (generate_average_report es) as [t|ex]; cbn [ending stdout exit_code].
    + split; [auto|]. exists [t]. auto.
    + split; [auto|]. exists []. rewrite app_nil_r. auto.
  - cbn [ending stdout exit_code]. split; [auto|]. eexists. split; [reflexivity|].
    cbn. lia.
Qed.

Section CliCover.

Variable json_loads : string -> decoded.
Variable fs : filesystem.
Variable fromisoformat : string -> option datetime.
Variable strftime_ymd : datetime -> string.

Lemma ingest_stage_shape (a : args) :
  (exit_code (ending (ingest_stage json_loads fs fromisoformat strftime_ymd a)) = 0
   \/ exit_code (ending (ingest_stage json_loads fs fromisoformat strftime_ymd a)) = 1)
  /\ exists tail : list text,
       stdout (ingest_stage json_loads fs fromisoformat strftime_ymd a)
       = (map Plain (snd (read_log_files json_loads fs (file a))) ++ tail)%list
       /\ (List.length tail <= 1)%nat.
Proof.
  unfold ingest_stage.
  destruct (read_log_files json_loads fs (file a)) as [[entries|ex0] warnings];
    cbn [snd].
  - destruct entries as [|e0 rest0].
    + cbn [ending stdout exit_code]. split; [auto|].
      eexists. split; [reflexivity|]. cbn. lia.
    + destruct (date_given a) as [d|]; [|apply report_stage_shape].
      destruct (filter_by_date fromisoformat strftime_ymd (e0 :: rest0) d)
        as [[|e1 rest1]|ex].
      * cbn [ending stdout exit_code]. split; [auto|].
        eexists. split; [reflexivity|]. cbn. lia.
      * apply report_stage_shape.
      * cbn [ending stdout exit_code]. split; [auto|].
        exists []. rewrite app_nil_r. auto.
  - cbn [ending stdout exit_code]. split; [auto|].
    exists []. rewrite app_nil_r. auto.
Qed.

Lemma date_stage_exit_code (a : args) :
  exit_code (ending (date_stage json_loads fs fromisoformat strftime_ymd a)) = 0
  \/ exit_code (ending (date_stage json_loads fs fromisoformat strftime_ymd a)) = 1.
Proof.
  unfold date_stage.
  destruct (date_given a) as [d|]; [|apply ingest_stage_shape].
  destruct (strptime_ymd d); [apply ingest_stage_shape|].
  cbn. auto.
Qed.

End CliCover.

(** X12.  When [parse_arguments] returns, the process ends with exit code
    0 or 1, whatever the arguments and the files, an uncaught exception
    included.  When argparse ends the process itself (a help request, a
    command line it refuses), the exit code is the one argparse gives. *)
Theorem exit_code_zero_or_one :
  forall (parse_arguments : list string -> parsed)
         (json_loads : string -> decoded) (fs : filesystem)
         (fromisoformat : string -> option datetime)
         (strftime_ymd : datetime -> string) (argv : list string),
    match parse_arguments argv with
    | Namespace _ =>
        exit_code
          (ending (main parse_arguments json_loads fs fromisoformat
                     strftime_ymd argv)) = 0
        \/ exit_code
             (ending (main parse_arguments json_loads fs fromisoformat
                        strftime_ymd argv)) = 1
    | ArgparseExit out code =>
        main parse_arguments json_loads fs fromisoformat strftime_ymd argv
        = mk_run (map Plain out) (SystemExit code) []
    end.
Proof.
  intros parse_arguments json_loads fs fromisoformat strftime_ymd argv.
  destruct (parse_arguments argv) as [a|out code] eqn:Hp.
  - rewrite (main_namespace _ _ _ _ _ _ _ Hp). apply date_stage_exit_code.
  - unfold main. now rewrite Hp.
Qed.

Example exit_codes_of_argparse :
  exit_code
    (ending (main Samples.sample_parse Samples.sample_loads Samples.sample_fs
               Samples.sample_fromisoformat Samples.sample_strftime ["--help"]))
  = 0
  /\ exit_code
       (ending (main Samples.sample_parse Samples.sample_loads Samples.sample_fs
                  Samples.sample_fromisoformat Samples.sample_strftime
                  ["--report"; "average"]))
     = 2.
Proof. vm_compute. split; reflexivity. Qed.

(** X13.  Once the date has passed its check, the output starts with the
    warnings of the ingestion, in their order, and holds at most one more
    text after them: an error, a note, or the report. *)
Theorem warnings_come_first
    (parse_arguments : list string -> parsed)
    (json_loads : string -> decoded) (fs : filesystem)
    (fromisoformat : string -> option datetime)
    (strftime_ymd : datetime -> string) (argv : list string) (a : args) :
  parse_arguments argv = Namespace a ->
  date_accepted a ->
  exists tail : list text,
    stdout (main parse_arguments json_loads fs fromisoformat strftime_ymd argv)
    = (map Plain (snd (read_log_files json_loads fs (file a))) ++ tail)%list
    /\ (List.length tail <= 1)%nat.
Proof.
  intros Hp Hacc.
  rewrite (main_namespace _ _ _ _ _ _ _ Hp), (date_stage_accepted _ _ _ _ _ Hacc).
  apply ingest_stage_shape.
Qed.

Lemma warnings_come_first_two_files :
  exists tail : list text,
    stdout (main Samples.sample_parse Samples.sample_loads Samples.sample_fs
              Samples.sample_fromisoformat Samples.sample_strftime
              Samples.two_files_argv)
    = (map Plain
         (snd (read_log_files Samples.sample_loads Samples.sample_fs
                 (file Samples.two_files_args))) ++ tail)%list
    /\ (List.length tail <= 1)%nat.
Proof.
  apply (warnings_come_first Samples.sample_parse Samples.sample_loads
           Samples.sample_fs Samples.sample_fromisoformat
           Samples.sample_strftime Samples.two_files_argv
           Samples.two_files_args).
  - reflexivity.
  - vm_compute. discriminate.
Defined.

(** X14.  With a date that passes its check, one decoded line that is not
    a JSON object (a number, a string, a list) ends the run with an
    uncaught AttributeError from the date filter: only the warnings of the
    ingestion are printed, no report, exit code 1. *)
Theorem date_filter_crashes_on_non_object
    (parse_arguments : list string -> parsed)
    (json_loads : string -> decoded) (fs : filesystem)
    (fromisoformat : string -> option datetime)
    (strftime_ymd : datetime -> string) (argv : list string) (a : args)
    (d : string) (entries : list value) :
  parse_arguments argv = Namespace a ->
  date_given a = Some d ->
  strptime_ymd d <> None ->
  fst (read_log_files json_loads fs (file a)) = Ok entries ->
  Exists (fun entry => is_dict entry = false) entries ->
  main parse_arguments json_loads fs fromisoformat strftime_ymd argv
  = mk_run (map Plain (snd (read_log_files json_loads fs (file a))))
      (Uncaught AttributeError) []
  /\ exit_code
       (ending (main parse_arguments json_loads fs fromisoformat strftime_ymd
                  argv)) = 1.
Proof.
  intros Hp Hd Hok Hread Hex.
  assert (Hmain : main parse_arguments json_loads fs fromisoformat strftime_ymd argv
                  = mk_run (map Plain (snd (read_log_files json_loads fs (file a))))
                      (Uncaught AttributeError) []).
  { rewrite (main_namespace _ _ _ _ _ _ _ Hp).
    rewrite date_stage_accepted by (unfold date_accepted; now rewrite Hd).
    unfold ingest_stage.
    destruct (read_log_files json_loads fs (file a)) as [r warnings].
    cbn [fst snd] in *. subst r.
    destruct entries as [|e0 rest0]; [inversion Hex|].
    rewrite Hd. unfold filter_by_date.
    now rewrite (filter_loop_not_dict _ _ _ _ Hex). }
  split; [exact Hmain | now rewrite Hmain].
Qed.

Lemma date_filter_crashes_on_non_object_sample :
  main Samples.sample_parse number_loads number_fs
    Samples.sample_fromisoformat Samples.sample_strftime Samples.number_argv
  = mk_run
      (map Plain
         (snd (read_log_files number_loads number_fs (file Samples.number_args))))
      (Uncaught AttributeError) []
  /\ exit_code
       (ending (main Samples.sample_parse number_loads number_fs
                  Samples.sample_fromisoformat Samples.sample_strftime
                  Samples.number_argv)) = 1.
Proof.
  apply (date_filter_crashes_on_non_object Samples.sample_parse number_loads
           number_fs Samples.sample_fromisoformat Samples.sample_strftime
           Samples.number_argv Samples.number_args "2025-06-22"
           [VInt 42; Samples.june_22_evening]).
  - reflexivity.
  - reflexivity.
  - vm_compute. discriminate.
  - vm_compute. reflexivity.
  - left. reflexivity.
Defined.


(** X17.  The order of the rows is fixed by the counts and by the order in
    which the endpoints were first seen: a list of rows with larger counts
    first and, for every count, the rows of that count in the order of the
    mapping, is the list of rows of the table. *)
Theorem row_order_is_determined (d : stats) (rows : list row) :
  StronglySorted (fun a b => total b <= total a) rows ->
  (forall c : Z,
      filter (fun r => total r =? c) rows
      = filter (fun r => total r =? c) (map row_of d)) ->
  rows = map snd (table_data d).
Proof.
  intros Hs Ht. rewrite table_data_rows.
  now apply stable_sort_is_sort_rows.
Qed.

Lemma row_order_is_determined_1_3_1 :
  [row_of ("/api/common", mk_stat 3 (0 + 0.1 + 0.1 + 0.1)%float);
   row_of ("/api/rare", mk_stat 1 (0 + 0.1)%float);
   row_of ("/api/other", mk_stat 1 (0 + 0.1)%float)]
  = map snd (table_data Samples.counts_1_3_1_stats).
Proof.
  apply (row_order_is_determined Samples.counts_1_3_1_stats).
  - repeat constructor; cbn; lia.
  - intros c. cbn [Samples.counts_1_3_1_stats map filter row_of total fst snd count].
    destruct (Z.eqb_spec 1 c), (Z.eqb_spec 3 c); try reflexivity; lia.
Defined.

